(** * Status-icon image converters: a shallow embedding and its properties

  The development follows the two scripts of
  [scripts/image-converter-statusicon]:

  - [convert_to_lvgl.py]: the RGB565A8 encoder, the emitter of the C
    source text and the batch driver (module [Codec]);
  - [generate_emoji.py]: the generation pipeline and the monochrome
    quantizer (module [Generator]).

  Python integers are [Z], loop counters and sizes are [nat], a [bytes]
  value is a list of integers in the range 0..255, text is [string], and
  the file system is a finite map from paths to file contents. *)

From Stdlib Require Import ZArith List String Ascii Lia Bool.
From stdpp Require Import base gmap strings list pretty.

Import ListNotations.
#[local] Open Scope string_scope.
#[local] Open Scope list_scope.

(** ** Python exceptions and results *)

Inductive exn : Type :=
| AssertionError
| FileNotFoundError
| UnidentifiedImageError.

Inductive result (A : Type) : Type :=
| Ok (a : A)
| Raise (e : exn).

Arguments Ok {A} a.
Arguments Raise {A} e.

(** [bytes] and [bytearray]: integers between 0 and 255. *)
Abbreviation bytes := (list Z).

Definition is_byte (v : Z) : bool := (0 <=? v)%Z && (v <? 256)%Z.

(** ** The part of Pillow the scripts rely on *)

Module PIL.

(** An image in memory: its size (width, height) and the pixel at every
    coordinate (x, y). *)
Record Image (A : Type) : Type := mkImage {
  size : nat * nat;
  getpixel : nat * nat -> A
}.

Arguments mkImage {A} size getpixel.
Arguments size {A} i.
Arguments getpixel {A} i xy.

(** A pixel of an "RGBA" image: four 8-bit channels. *)
Definition RGBA : Type := (Z * Z * Z * Z)%type.

Definition rgba_ok (p : RGBA) : bool :=
  let '(r, g, b, a) := p in is_byte r && is_byte g && is_byte b && is_byte a.

(** [Image.point(f)]: the same image with [f] applied to every pixel. *)
Definition point {A B : Type} (f : A -> B) (img : Image A) : Image B :=
  mkImage (size img) (fun xy => f (getpixel img xy)).

(** [Image.new(mode, size, color)]. *)
Definition new {A : Type} (sz : nat * nat) (color : A) : Image A :=
  mkImage sz (fun _ => color).

(** Mode "1" stores a pixel as 0 (black) or 255 (white). *)
Definition is_black (v : Z) : bool := (v =? 0)%Z.
Definition is_white (v : Z) : bool := (v =? 255)%Z.

End PIL.

(** ** convert_to_lvgl.py *)

Module Codec.
Import PIL.

Definition EMOJI_DIR : string := "output/emoji_32".
Definition OUTPUT_DIR : string := "output/emoji_c".

(** [Path / name] *)
Definition path_join (dir name : string) : string := dir +:+ "/" +:+ name.

Definition EMOJI_MAP : list (string * string) :=
  [ ("neutral",     "1f636");
    ("happy",       "1f642");
    ("laughing",    "1f606");
    ("funny",       "1f602");
    ("sad",         "1f614");
    ("angry",       "1f620");
    ("crying",      "1f62d");
    ("loving",      "1f60d");
    ("embarrassed", "1f633");
    ("surprised",   "1f62f");
    ("shocked",     "1f631");
    ("thinking",    "1f914");
    ("winking",     "1f609");
    ("cool",        "1f60e");
    ("relaxed",     "1f60c");
    ("delicious",   "1f924");
    ("kissy",       "1f618");
    ("confident",   "1f60f");
    ("sleepy",      "1f634");
    ("silly",       "1f61c");
    ("confused",    "1f644") ].

(** *** The file system seen by the script

    A file either decodes as an image (what
    [Image.open(path).convert("RGBA")] yields) or is some other text. *)
Inductive file : Type :=
| FImage (img : Image RGBA)
| FText (s : string).

(** *** png_to_rgb565a8 *)

(** [((r >> 3) << 11) | ((g >> 2) << 5) | (b >> 3)] *)
Definition rgb565_of (r g b : Z) : Z :=
  Z.lor (Z.lor (Z.shiftl (Z.shiftr r 3) 11) (Z.shiftl (Z.shiftr g 2) 5))
        (Z.shiftr b 3).

(** The two [bytearray]s the loops fill. *)
Record planes : Type := mkPlanes {
  rgb565_data : bytes;
  alpha_data : bytes
}.

(** [bytearray.append] *)
Definition append (buf : bytes) (v : Z) : bytes := buf ++ [v].

(** Body of the inner loop, for one pixel (x, y). *)
Definition pixel_body (img : Image RGBA) (y : nat) (acc : planes) (x : nat)
  : planes :=
  let '(r, g, b, a) := getpixel img (x, y) in
  let rgb565 := rgb565_of r g b in
  let d := append (rgb565_data acc) (Z.land rgb565 255) in
  let d := append d (Z.land (Z.shiftr rgb565 8) 255) in
  mkPlanes d (append (alpha_data acc) a).

(** [for x in range(32)] *)
Definition row_loop (img : Image RGBA) (acc : planes) (y : nat) : planes :=
  fold_left (pixel_body img y) (seq 0 32) acc.

(** [for y in range(32)] *)
Definition pixel_loops (img : Image RGBA) : planes :=
  fold_left (row_loop img) (seq 0 32) (mkPlanes [] []).

(** The function after the image has been opened: the size assertion, the
    two loops and the concatenation of the planes. *)
Definition encode (img : Image RGBA) : result bytes :=
  if decide (size img = (32, 32)) then
    let p := pixel_loops img in
    Ok (rgb565_data p ++ alpha_data p)
  else Raise AssertionError.

Definition png_to_rgb565a8 (fs : gmap string file) (png_path : string)
  : result bytes :=
  match fs !! png_path with
  | None => Raise FileNotFoundError
  | Some (FText _) => Raise UnidentifiedImageError
  | Some (FImage img) => encode img
  end.

(** *** generate_c_file *)

Definition hex_digits : list ascii := list_ascii_of_string "0123456789abcdef".

Definition hex_digit (n : Z) : ascii := nth (Z.to_nat n) hex_digits "0"%char.

(** [f"0x{b:02x}"] for an element [b] of a [bytes] value (two digits). *)
Definition hex02 (b : Z) : string :=
  "0x" +:+ String (hex_digit (b / 16)) (String (hex_digit (b mod 16)) "").

(** [data[start:end]] for [0 <= start <= end] *)
Definition slice (data : bytes) (start end_ : nat) : bytes :=
  take (end_ - start) (drop start data).

(** [f"    {hex_str},"] with [hex_str = ",".join(f"0x{b:02x}" for b in chunk)] *)
Definition hex_line (chunk : bytes) : string :=
  "    " +:+ String.concat "," (map hex02 chunk) +:+ ",".

(** [str.upper] on ASCII text. *)
Definition upper_ascii (c : ascii) : ascii :=
  let n := nat_of_ascii c in
  if (97 <=? n)%nat && (n <=? 122)%nat then ascii_of_nat (n - 32) else c.

Fixpoint upper (s : string) : string :=
  match s with
  | EmptyString => EmptyString
  | String c s' => String (upper_ascii c) (upper s')
  end.

(** The double-quote character (code 34). *)
Definition dquote : string := String (ascii_of_nat 34) EmptyString.

Definition var_name (unicode_cp : string) : string :=
  "emoji_" +:+ unicode_cp +:+ "_32".

Definition attr_name (unicode_cp : string) : string :=
  "LV_ATTRIBUTE_EMOJI_" +:+ upper unicode_cp +:+ "_32".

(** The lines appended before the first loop. *)
Definition prologue (unicode_cp : string) : list string :=
  [ "";
    "#if defined(LV_LVGL_H_INCLUDE_SIMPLE)";
    "#include " +:+ dquote +:+ "lvgl.h" +:+ dquote;
    "#elif defined(LV_BUILD_TEST)";
    "#include " +:+ dquote +:+ "../lvgl.h" +:+ dquote;
    "#else";
    "#include " +:+ dquote +:+ "lvgl/lvgl.h" +:+ dquote;
    "#endif";
    "";
    "";
    "#ifndef LV_ATTRIBUTE_MEM_ALIGN";
    "#define LV_ATTRIBUTE_MEM_ALIGN";
    "#endif";
    "";
    "#ifndef " +:+ attr_name unicode_cp;
    "#define " +:+ attr_name unicode_cp;
    "#endif";
    "";
    "static const";
    "LV_ATTRIBUTE_MEM_ALIGN LV_ATTRIBUTE_LARGE_CONST " +:+ attr_name unicode_cp;
    "uint8_t " +:+ var_name unicode_cp +:+ "_map[] = {";
    "" ].

(** First loop: one line per row of the RGB565 part, 64 bytes each. *)
Definition color_rows (data : bytes) : list bytes :=
  map (fun row => let start := row * 64 in
                  let end_ := start + 64 in
                  slice data start end_) (seq 0 32).

Definition alpha_offset : nat := 32 * 32 * 2.

(** Second loop: one line per row of the alpha part, 32 bytes each. *)
Definition alpha_rows (data : bytes) : list bytes :=
  map (fun row => let start := alpha_offset + row * 32 in
                  let end_ := start + 32 in
                  slice data start end_) (seq 0 32).

(** The lines appended after the loops: the end of the array and the
    [lv_image_dsc_t] record. *)
Definition epilogue (unicode_cp : string) (data : bytes) : list string :=
  [ "";
    "};";
    "";
    "const lv_image_dsc_t " +:+ var_name unicode_cp +:+ " = {";
    "  .header.magic = LV_IMAGE_HEADER_MAGIC,";
    "  .header.cf = LV_COLOR_FORMAT_RGB565A8,";
    "  .header.flags = 0,";
    "  .header.w = 32,";
    "  .header.h = 32,";
    "  .header.stride = 64,";
    "  .data_size = " +:+ pretty (length data) +:+ ",";
    "  .data = " +:+ var_name unicode_cp +:+ "_map,";
    "};";
    "" ].

Definition generate_c_lines (emotion_name unicode_cp : string) (data : bytes)
  : list string :=
  prologue unicode_cp
    ++ map hex_line (color_rows data)
    ++ map hex_line (alpha_rows data)
    ++ epilogue unicode_cp data.

Definition newline : string := String (ascii_of_nat 10) "".

(** ["\n".join(lines)] *)
Definition generate_c_file (emotion_name unicode_cp : string) (data : bytes)
  : string :=
  String.concat newline (generate_c_lines emotion_name unicode_cp data).

(** *** main

    The state of a run: the files on disk, what was printed (the title and
    the closing instructions, which are constant, are left out) and the
    counter [converted]. *)
Inductive msg : Type :=
| MsgMissing (emotion_name : string)
| MsgConverting (emotion_name unicode_cp : string)
| MsgWritten (len : nat)
| MsgSummary (converted total : nat).

Record state : Type := mkState {
  fs : gmap string file;
  stdout : list msg;
  converted : nat
}.

Definition print (m : msg) (st : state) : state :=
  mkState (fs st) (stdout st ++ [m]) (converted st).

(** [Path.write_text] *)
Definition write_text (path text : string) (st : state) : state :=
  mkState (<[path := FText text]> (fs st)) (stdout st) (converted st).

Definition png_path_of (emotion_name : string) : string :=
  path_join EMOJI_DIR (emotion_name +:+ ".png").

Definition out_path_of (unicode_cp : string) : string :=
  path_join OUTPUT_DIR ("emoji_" +:+ unicode_cp +:+ "_32.c").

(** [for emotion_name, unicode_cp in EMOJI_MAP]: the state when the loop
    stops, and the exception that stopped it, if any. Nothing in the loop
    handles an exception. *)
Fixpoint convert_loop (items : list (string * string)) (st : state)
  : state * option exn :=
  match items with
  | [] => (st, None)
  | (emotion_name, unicode_cp) :: rest =>
      let png_path := png_path_of emotion_name in
      match fs st !! png_path with
      | None => convert_loop rest (print (MsgMissing emotion_name) st)
      | Some _ =>
          let st := print (MsgConverting emotion_name unicode_cp) st in
          match png_to_rgb565a8 (fs st) png_path with
          | Raise e => (st, Some e)
          | Ok data =>
              let c_code := generate_c_file emotion_name unicode_cp data in
              let out_path := out_path_of unicode_cp in
              let st := write_text out_path c_code st in
              let st := print (MsgWritten (length data)) st in
              convert_loop rest
                (mkState (fs st) (stdout st) (converted st + 1))
          end
      end
  end.

Definition main (files : gmap string file) : state * option exn :=
  match convert_loop EMOJI_MAP (mkState files [] 0) with
  | (st, None) =>
      (print (MsgSummary (converted st) (length EMOJI_MAP)) st, None)
  | (st, Some e) => (st, Some e)
  end.

End Codec.

(** ** generate_emoji.py *)

Module Generator.
Import PIL.

Definition RAW_DIR : string := "output/emoji_raw".
Definition FINAL_DIR : string := "output/emoji_32".
Definition PREVIEW_DIR : string := "output/emoji_preview".
Definition REFERENCE_IMAGE_PATH : string := "output/image.png".
Definition HTML_PATH : string := "output/preview.html".

Definition path_join (dir name : string) : string := dir +:+ "/" +:+ name.

(** (name, emoji, description) *)
Definition EMOTIONS : list (string * string * string) :=
[
  ("neutral", "😶",
   "calm, serene expression with gentle closed lips, peaceful eyes looking forward");
  ("happy", "🙂",
   "warm gentle smile, slightly upturned lips, soft happy eyes");
  ("laughing", "😆",
   "eyes squeezed shut from laughing hard, wide open mouth, hair slightly messy from movement");
  ("funny", "😂",
   "laughing so hard with a tear at the corner of one eye, mouth wide open in joy");
  ("sad", "😔",
   "downcast eyes looking down, slightly furrowed brows, small frown, melancholic mood");
  ("angry", "😠",
   "sharp furrowed eyebrows, intense glaring eyes, tight frown, fierce expression");
  ("crying", "😭",
   "streams of tears flowing down both cheeks, mouth open crying, distressed expression");
  ("loving", "😍",
   "heart-shaped sparkles in eyes, dreamy adoring expression, blissful smile");
  ("embarrassed", "😳",
   "wide surprised eyes, small dots on cheeks for blush effect, lips slightly parted in shyness");
  ("surprised", "😯",
   "wide round eyes, small 'o' shaped open mouth, raised eyebrows, hair slightly blown back");
  ("shocked", "😱",
   "extremely wide eyes with tiny pupils, mouth wide open in shock, hands near face");
  ("thinking", "🤔",
   "one hand touching chin, eyes looking upward to the side, slight pursed lips, contemplative");
  ("winking", "😉",
   "one eye closed in a playful wink, slight smirk, confident and flirty");
  ("cool", "😎",
   "wearing small stylish sunglasses, confident slight smile, relaxed composed look");
  ("relaxed", "😌",
   "eyes gently closed, peaceful serene smile, head slightly tilted, content expression");
  ("delicious", "🤤",
   "eyes half-closed in bliss, small drool drop at corner of mouth, savoring expression");
  ("kissy", "😘",
   "puckered lips blowing a kiss, one eye winking, small heart floating near lips");
  ("confident", "😏",
   "one eyebrow slightly raised, knowing smirk, half-lidded confident eyes");
  ("sleepy", "😴",
   "eyes closed, head slightly drooping, small 'zzz' marks near head, drowsy peaceful face");
  ("silly", "😜",
   "tongue sticking out to one side, one eye winking, playful mischievous expression");
  ("confused", "🙄",
   "eyes rolled upward, slight pout, exasperated 'really?' expression")
].

Definition raw_path_of (emotion_name : string) : string :=
  path_join RAW_DIR (emotion_name +:+ ".png").

Definition final_path_of (emotion_name : string) : string :=
  path_join FINAL_DIR (emotion_name +:+ ".png").

(** [Path.name]: the last component of a path. *)
Fixpoint has_slash (s : string) : bool :=
  match s with
  | EmptyString => false
  | String c s' => Ascii.eqb c "/"%char || has_slash s'
  end.

Fixpoint name (s : string) : string :=
  match s with
  | EmptyString => EmptyString
  | String _ s' => if has_slash s then name s' else s
  end.

(** *** The generation service

    A request carries the optional reference image and the arguments the
    prompt template is filled with. A response lists, for every candidate,
    the parts of its content. *)
Record Request : Type := mkRequest {
  ref_image_part : option bytes;
  req_emotion_name : string;
  req_emoji : string;
  req_description : string
}.

Record Blob : Type := mkBlob {
  mime_type : string;
  data : bytes
}.

Record Part : Type := mkPart {
  inline_data : option Blob
}.

Record Response : Type := mkResponse {
  candidates : list (list Part)
}.

(** *** The state of a run: the files on disk and the trace of what the run
    did (lines printed, files written, requests sent), oldest first. *)
Inductive msg : Type :=
| MsgRefMissing
| MsgRefLoaded (len : nat)
| MsgExists (emotion_name emoji : string)
| MsgGenerating (emotion_name emoji : string)
| MsgGenerated
| MsgNoImage
| MsgError
| MsgGenFailed (emotion_name : string)
| MsgTodo (n : nat)
| MsgStep1 (generated skipped failed : nat)
| MsgMissing (missing : list string)
| MsgRawMissing (emotion_name emoji : string)
| MsgProcessed (emotion_name emoji : string)
| MsgProcessFailed (emotion_name emoji : string) (e : exn)
| MsgDone (processed total : nat)
| MsgPreviewPage.

Inductive event : Type :=
| Print (m : msg)
| Write (path : string) (content : bytes)
| Call (req : Request).

Record world : Type := mkWorld {
  fs : gmap string bytes;
  trace : list event
}.

Definition print (m : msg) (w : world) : world :=
  mkWorld (fs w) (trace w ++ [Print m]).

(** [Path.write_bytes], [Image.save], [Path.write_text] *)
Definition write (path : string) (content : bytes) (w : world) : world :=
  mkWorld (<[path := content]> (fs w)) (trace w ++ [Write path content]).

Definition call (req : Request) (w : world) : world :=
  mkWorld (fs w) (trace w ++ [Call req]).

(** [Path.exists] *)
Definition exists_ (path : string) (w : world) : bool :=
  bool_decide (is_Some (fs w !! path)).

(** *** The quantizer's last step *)

(** [lambda x: 255 if x > 180 else 0] *)
Definition threshold (x : Z) : Z := if (180 <? x)%Z then 255%Z else 0%Z.

(** [img.point(lambda x: 255 if x > 180 else 0, mode="1")] *)
Definition binarize (img : Image Z) : Image Z := point threshold img.

Inductive resample : Type := LANCZOS | NEAREST.

(** The channel [img.split()[3]]. *)
Definition alpha_of (p : RGBA) : Z := let '(_, _, _, a) := p in a.

(** [for part in parts: if part.inline_data and
    part.inline_data.mime_type.startswith("image/"): return ...data] *)
Fixpoint first_image (parts : list Part) : option bytes :=
  match parts with
  | [] => None
  | part :: rest =>
      match inline_data part with
      | Some blob =>
          if String.prefix "image/" (mime_type blob) then Some (data blob)
          else first_image rest
      | None => first_image rest
      end
  end.

(** Truth value of [bytes | None]: neither [None] nor empty. *)
Definition truthy (image_data : option bytes) : bool :=
  match image_data with
  | Some (_ :: _) => true
  | _ => false
  end.

Section Pipeline.

(** The external collaborators: the generation service ([None] when the
    call raises), Pillow's decoder ([None] when it raises), compositing,
    grey-scale conversion, contrast stretch, resampling and PNG encoder,
    and the template of the HTML page. *)
Variable generate_content : Request -> option Response.
Variable open_rgba : bytes -> option (Image RGBA).
Variable paste : Image RGBA -> Image RGBA -> Image Z -> Image RGBA.
Variable convert_L : Image RGBA -> Image Z.
Variable autocontrast : Image Z -> nat -> Image Z.
Variable resize : Image Z -> nat * nat -> resample -> Image Z.
Variable save_png : Image Z -> bytes.
Variable render_html : list (string * string * string * bool * bool) -> bytes.

(** The steps of [process_to_monochrome_32] before the threshold. *)
Definition luminance (img : Image RGBA) : Image Z :=
  let bg := new (size img) (255, 255, 255, 255)%Z in
  let bg := paste bg img (point alpha_of img) in
  let img := convert_L bg in
  let img := autocontrast img 5 in
  let img := resize img (64, 64) LANCZOS in
  let img := autocontrast img 10 in
  resize img (32, 32) LANCZOS.

(** The bitmap that is saved. *)
Definition monochrome (img : Image RGBA) : Image Z := binarize (luminance img).

Definition process_to_monochrome_32 (input_path output_path : string)
    (w : world) : result world :=
  match fs w !! input_path with
  | None => Raise FileNotFoundError
  | Some raw =>
      match open_rgba raw with
      | None => Raise UnidentifiedImageError
      | Some img =>
          let img := monochrome img in
          let w := write output_path (save_png img) w in
          let preview := resize img (128, 128) NEAREST in
          Ok (write (path_join PREVIEW_DIR (name output_path))
                    (save_png preview) w)
      end
  end.

Definition load_reference_image (w : world) : world * option bytes :=
  match fs w !! REFERENCE_IMAGE_PATH with
  | None => (print MsgRefMissing w, None)
  | Some image_bytes => (print (MsgRefLoaded (length image_bytes)) w,
                         Some image_bytes)
  end.

Definition generate_single_emoji (emotion_name emoji description : string)
    (ref : option bytes) (w : world) : world * option bytes :=
  let w := print (MsgGenerating emotion_name emoji) w in
  let req := mkRequest ref emotion_name emoji description in
  let w := call req w in
  match generate_content req with
  | None => (print MsgError w, None)
  | Some response =>
      match candidates response with
      | parts :: _ =>
          match first_image parts with
          | Some d => (print MsgGenerated w, Some d)
          | None => (print MsgNoImage w, None)
          end
      | [] => (print MsgNoImage w, None)
      end
  end.

(** One task of the pool. *)
Definition gen_task (ref : option bytes) (item : string * string * string)
    (w : world) : world * bool :=
  let '(emotion_name, emoji, description) := item in
  let '(w, image_data) :=
    generate_single_emoji emotion_name emoji description ref w in
  match image_data with
  | Some d =>
      if truthy image_data then (write (raw_path_of emotion_name) d w, true)
      else (print (MsgGenFailed emotion_name) w, false)
  | None => (print (MsgGenFailed emotion_name) w, false)
  end.

(** The loop that fills [todo] and counts [skipped]. *)
Fixpoint select_todo (items : list (string * string * string)) (w : world)
  : world * list (string * string * string) * nat :=
  match items with
  | [] => (w, [], 0)
  | (emotion_name, emoji, description) :: rest =>
      if exists_ (raw_path_of emotion_name) w then
        let '(w', todo, skipped) :=
          select_todo rest (print (MsgExists emotion_name emoji) w) in
        (w', todo, S skipped)
      else
        let '(w', todo, skipped) := select_todo rest w in
        (w', (emotion_name, emoji, description) :: todo, skipped)
  end.

(** The tasks of the pool, run one after the other in the order of [todo];
    the tasks write distinct files and the counters only add up, so the
    order in which they complete changes the order of the trace only. *)
Fixpoint run_tasks (ref : option bytes)
    (todo : list (string * string * string)) (w : world)
    (generated failed : nat) : world * nat * nat :=
  match todo with
  | [] => (w, generated, failed)
  | item :: rest =>
      let '(w, success) := gen_task ref item w in
      if success then run_tasks ref rest w (generated + 1) failed
      else run_tasks ref rest w generated (failed + 1)
  end.

Definition missing_of (items : list (string * string * string)) (w : world)
  : list string :=
  flat_map (fun '(emotion_name, emoji, _) =>
              if exists_ (raw_path_of emotion_name) w then []
              else [emotion_name +:+ " " +:+ emoji]) items.

(** The second loop: every raw image present is processed; an exception of
    [process_to_monochrome_32] is caught and reported. *)
Fixpoint process_all (items : list (string * string * string)) (w : world)
    (processed : nat) : world * nat :=
  match items with
  | [] => (w, processed)
  | (emotion_name, emoji, _) :: rest =>
      let raw_path := raw_path_of emotion_name in
      let final_path := final_path_of emotion_name in
      if exists_ raw_path w then
        match process_to_monochrome_32 raw_path final_path w with
        | Ok w' =>
            process_all rest (print (MsgProcessed emotion_name emoji) w')
                        (processed + 1)
        | Raise e =>
            process_all rest (print (MsgProcessFailed emotion_name emoji e) w)
                        processed
        end
      else process_all rest (print (MsgRawMissing emotion_name emoji) w)
                       processed
  end.

Definition generate_preview_html (w : world) : world :=
  let rows :=
    map (fun '(emotion_name, emoji, description) =>
           (emotion_name, emoji, description,
            exists_ (raw_path_of emotion_name) w,
            exists_ (final_path_of emotion_name) w)) EMOTIONS in
  print MsgPreviewPage (write HTML_PATH (render_html rows) w).

Definition main (files : gmap string bytes) : world :=
  let w := mkWorld files [] in
  let '(w, ref_image) := load_reference_image w in
  let '(w, todo, skipped) := select_todo EMOTIONS w in
  let '(w, generated, failed) :=
    match todo with
    | [] => (w, 0, 0)
    | _ :: _ => run_tasks ref_image todo (print (MsgTodo (length todo)) w) 0 0
    end in
  let w := print (MsgStep1 generated skipped failed) w in
  let missing := missing_of EMOTIONS w in
  let w := match missing with
           | [] => w
           | _ :: _ => print (MsgMissing missing) w
           end in
  let '(w, processed) := process_all EMOTIONS w 0 in
  let w := print (MsgDone processed (length EMOTIONS)) w in
  generate_preview_html w.

End Pipeline.

End Generator.

(** ** The layout of an RGB565A8 blob, as the script's header documents it:
    first the RGB565 values of all pixels (two bytes each, low byte first),
    then the alpha values of all pixels (one byte each). *)

Module Layout.
Import PIL Codec.

(** The two bytes of one pixel in the colour plane. *)
Definition color_pair (p : RGBA) : bytes :=
  let '(r, g, b, _) := p in
  let c := rgb565_of r g b in
  [Z.land c 255; Z.land (Z.shiftr c 8) 255].

Definition alpha_of (p : RGBA) : Z := let '(_, _, _, a) := p in a.

(** The planes in row-major order. *)
Definition color_plane (img : Image RGBA) : bytes :=
  flat_map (fun y => flat_map (fun x => color_pair (getpixel img (x, y)))
                              (seq 0 32)) (seq 0 32).

Definition alpha_plane (img : Image RGBA) : bytes :=
  flat_map (fun y => flat_map (fun x => [alpha_of (getpixel img (x, y))])
                              (seq 0 32)) (seq 0 32).

(** The 16-bit colour value read back from a byte pair, low byte first. *)
Definition color16 (lo hi : Z) : Z := Z.lor lo (Z.shiftl hi 8).

(** Modelled from the spec: the decoder of a packed blob. The repository has
    no decoder; this one reads the documented layout: pixel (x, y) has its
    16-bit colour at bytes [2 * (32 * y + x)] and the next one, little
    endian, with red in bits 11-15, green in bits 5-10 and blue in bits 0-4,
    and its alpha at byte [2048 + 32 * y + x]. *)
Definition decode (blob : bytes) : Image RGBA :=
  mkImage (32, 32)
    (fun '(x, y) =>
       let i := 32 * y + x in
       let c := color16 (nth (2 * i) blob 0%Z) (nth (2 * i + 1) blob 0%Z) in
       (Z.land (Z.shiftr c 11) 31, Z.land (Z.shiftr c 5) 63, Z.land c 31,
        nth (2048 + i) blob 0%Z)).

(** The 5/6/5-bit truncation of a pixel: the low bits are dropped. *)
Definition truncate (p : RGBA) : RGBA :=
  let '(r, g, b, a) := p in (Z.shiftr r 3, Z.shiftr g 2, Z.shiftr b 3, a).

(** An image all of whose 32x32 pixels have 8-bit channels. *)
Definition valid_image (img : Image RGBA) : Prop :=
  size img = (32, 32) /\
  forall x y, x < 32 -> y < 32 -> rgba_ok (getpixel img (x, y)) = true.

(** What the bit fields of a colour value must satisfy, for 5-, 6- and 5-bit
    fields [r5], [g6] and [b5]. *)
Definition fields_ok (r5 g6 b5 : Z) : bool :=
  let c := Z.lor (Z.lor (Z.shiftl r5 11) (Z.shiftl g6 5)) b5 in
  let lo := Z.land c 255 in
  let hi := Z.land (Z.shiftr c 8) 255 in
  (color16 lo hi =? c)%Z && (lo + 256 * hi =? c)%Z
  && (0 <=? c)%Z && (c <? 65536)%Z
  && (Z.shiftr c 11 =? r5)%Z && (Z.land (Z.shiftr c 11) 31 =? r5)%Z
  && (Z.land (Z.shiftr c 5) 63 =? g6)%Z && (Z.land c 31 =? b5)%Z
  && is_byte lo && is_byte hi.

Definition zrange (n : nat) : list Z := map Z.of_nat (seq 0 n).

(** Sample images: opaque pure red, and the same colour fully transparent. *)
Definition red_image : Image RGBA := new (32, 32) (255, 0, 0, 255)%Z.
Definition clear_red_image : Image RGBA := new (32, 32) (255, 0, 0, 0)%Z.
Definition blue_image : Image RGBA := new (32, 32) (0, 0, 255, 255)%Z.

Definition rgb_of (p : RGBA) : Z * Z * Z := let '(r, g, b, _) := p in (r, g, b).

End Layout.

(** ** What a run of the codec's driver is expected to leave behind *)

Module Batch.
Import PIL Codec.

(** The input file of an item exists. *)
Definition present (files : gmap string file) (item : string * string)
  : bool :=
  bool_decide (is_Some (files !! png_path_of item.1)).

(** The input file of an item, when it exists, is a 32x32 image. *)
Definition input_okb (files : gmap string file) (item : string * string)
  : bool :=
  match files !! png_path_of item.1 with
  | None => true
  | Some (FImage img) => bool_decide (size img = (32, 32))
  | Some (FText _) => false
  end.

(** The names the run reported as missing, in the order of the reports. *)
Definition reported_missing (out : list msg) : list string :=
  omap (fun m => match m with MsgMissing n => Some n | _ => None end) out.

(** The names of the items without an input file. *)
Definition missing_names (files : gmap string file)
    (items : list (string * string)) : list string :=
  map fst (List.filter (fun item => negb (present files item)) items).

(** The lines printed for a list of items whose inputs are all fine. *)
Definition report (files : gmap string file) (items : list (string * string))
  : list msg :=
  flat_map (fun item =>
              if present files item
              then [MsgConverting item.1 item.2; MsgWritten 3072]
              else [MsgMissing item.1]) items.

(** The files on disk after the outputs of the items whose input is a 32x32
    image have been written. *)
Definition emit_one (files : gmap string file) (m : gmap string file)
    (item : string * string) : gmap string file :=
  match files !! png_path_of item.1 with
  | Some (FImage img) =>
      match encode img with
      | Ok data =>
          <[out_path_of item.2 := FText (generate_c_file item.1 item.2 data)]> m
      | Raise _ => m
      end
  | _ => m
  end.

Definition emit (files : gmap string file) (items : list (string * string))
    (m : gmap string file) : gmap string file :=
  fold_left (emit_one files) items m.

(** Sample directories: every input present but two; and a directory whose
    first input has the wrong size while the second is fine. *)
Definition two_missing : gmap string file :=
  list_to_map
    (map (fun item => (png_path_of item.1, FImage Layout.red_image))
         (List.filter (fun item => negb (String.eqb item.1 "sad"
                                         || String.eqb item.1 "cool"))
                      EMOJI_MAP)).

Definition wrong_size : gmap string file :=
  list_to_map
    [ (png_path_of "neutral", FImage (new (16, 16) (255, 0, 0, 255)%Z));
      (png_path_of "happy", FImage Layout.red_image) ].

End Batch.

(** ** What a run of the generation pipeline does to an item *)

Module Rerun.
Import PIL Generator.

Definition name_of (item : string * string * string) : string := item.1.1.


(** [w'] is reached from [w] by events that all satisfy [ok], and the files
    at the paths in [keep] are the same in both. *)
Definition changes (keep : string -> Prop) (ok : event -> Prop)
    (w w' : world) : Prop :=
  (exists evs, trace w' = trace w ++ evs /\ Forall ok evs)
  /\ forall path, keep path -> fs w' !! path = fs w !! path.



Section Phases.

Variable generate_content : Request -> option Response.
Variable open_rgba : bytes -> option (Image RGBA).
Variable paste : Image RGBA -> Image RGBA -> Image Z -> Image RGBA.
Variable convert_L : Image RGBA -> Image Z.
Variable autocontrast : Image Z -> nat -> Image Z.
Variable resize : Image Z -> nat * nat -> resample -> Image Z.
Variable save_png : Image Z -> bytes.

(** One iteration of the second loop of [main]. *)
Definition process_step (item : string * string * string) (w : world)
  : world :=
  let '(emotion_name, emoji, _) := item in
  if exists_ (raw_path_of emotion_name) w then
    match process_to_monochrome_32 open_rgba paste convert_L autocontrast
            resize save_png (raw_path_of emotion_name)
            (final_path_of emotion_name) w with
    | Ok w' => print (MsgProcessed emotion_name emoji) w'
    | Raise e => print (MsgProcessFailed emotion_name emoji e) w
    end
  else print (MsgRawMissing emotion_name emoji) w.

(** The part of [main] that comes before the second loop, over a list of
    items. *)
Definition before_processing (items : list (string * string * string))
    (files : gmap string bytes) : world :=
  let w := mkWorld files [] in
  let '(w, ref_image) := load_reference_image w in
  let '(w, todo, skipped) := select_todo items w in
  let '(w, generated, failed) :=
    match todo with
    | [] => (w, 0, 0)
    | _ :: _ =>
        run_tasks generate_content ref_image todo
                  (print (MsgTodo (length todo)) w) 0 0
    end in
  let w := print (MsgStep1 generated skipped failed) w in
  let missing := missing_of items w in
  match missing with
  | [] => w
  | _ :: _ => print (MsgMissing missing) w
  end.

End Phases.

End Rerun.

(** ** A stand-in for the external collaborators, to run the pipeline on
    sample inputs: a service that answers nothing, an image file that is the
    list of its grey levels (decoded as a 32x32 image of the first one),
    no contrast stretch, and resampling by picking the pixel at the same
    coordinates. *)

Module Sample.
Import PIL Generator.

Definition generate_content (req : Request) : option Response := None.

Definition open_rgba (raw : bytes) : option (Image RGBA) :=
  match raw with
  | [] => None
  | v :: _ => Some (new (32, 32) (v, v, v, 255%Z))
  end.

Definition paste (bg img : Image RGBA) (mask : Image Z) : Image RGBA := img.

Definition convert_L (img : Image RGBA) : Image Z :=
  point (fun p : RGBA => let '(r, _, _, _) := p in r) img.

Definition autocontrast (img : Image Z) (cutoff : nat) : Image Z := img.

Definition resize (img : Image Z) (sz : nat * nat) (f : resample) : Image Z :=
  mkImage sz (getpixel img).

Definition save_png (img : Image Z) : bytes := [getpixel img (0, 0)].

Definition render_html (rows : list (string * string * string * bool * bool))
  : bytes := [].

Definition monochrome : Image RGBA -> Image Z :=
  Generator.monochrome paste convert_L autocontrast resize.

Definition luminance : Image RGBA -> Image Z :=
  Generator.luminance paste convert_L autocontrast resize.

Definition main : gmap string bytes -> world :=
  Generator.main generate_content open_rgba paste convert_L autocontrast
                 resize save_png render_html.

(** A bright grey image and a dark grey one. *)
Definition bright : Image RGBA := new (256, 256) (200, 200, 200, 255)%Z.
Definition dark : Image RGBA := new (256, 256) (90, 90, 90, 255)%Z.

(** The output directories after a first run that produced [neutral]: its
    raw image (one dark grey level) and the bitmap computed from it. *)
Definition after_first_run : gmap string bytes :=
  list_to_map [ (raw_path_of "neutral", [90%Z]);
                (final_path_of "neutral", [0%Z]) ].


End Sample.

(** ** A second sample environment, with a contrast stretch

    [ImageOps.autocontrast] maps the darkest level that is left after the
    cut-off to 0 and the brightest to 255, and leaves an image of one level
    as it is. The stand-in below does so with nothing cut off, which is what
    Pillow computes for an image whose darkest and brightest levels each
    cover more than the cut-off share of the pixels. *)

Module Stretch.
Import PIL Generator.

(** The grey levels of an image, row by row. *)
Definition levels (img : Image Z) : list Z :=
  flat_map (fun y => map (fun x => getpixel img (x, y))
                         (seq 0 (size img).1))
           (seq 0 (size img).2).

Definition autocontrast (img : Image Z) (cutoff : nat) : Image Z :=
  match levels img with
  | [] => img
  | v :: vs =>
      let lo := fold_right Z.min v vs in
      let hi := fold_right Z.max v vs in
      if (hi <=? lo)%Z then img
      else point (fun x => ((x - lo) * 255 / (hi - lo))%Z) img
  end.

(** A stand-in for [Image.resize]: every pixel of the result is the pixel
    of the source at the same relative position. *)
Definition resize (img : Image Z) (sz : nat * nat) (f : resample) : Image Z :=
  mkImage sz (fun xy => getpixel img (Nat.div (xy.1 * (size img).1) sz.1,
                                      Nat.div (xy.2 * (size img).2) sz.2)).

Definition luminance : Image RGBA -> Image Z :=
  Generator.luminance Sample.paste Sample.convert_L autocontrast resize.

Definition monochrome : Image RGBA -> Image Z :=
  Generator.monochrome Sample.paste Sample.convert_L autocontrast resize.

(** An opaque image brighter than 180 everywhere: grey 190 on its left
    half, grey 250 on its right half. *)
Definition two_tone : Image RGBA :=
  mkImage (64, 64)
          (fun xy => if Nat.ltb xy.1 32 then (190, 190, 190, 255)%Z
                     else (250, 250, 250, 255)%Z).

(** Every pixel of the 64x64 image has its three colour channels above
    180 and is opaque. *)
Definition brighter_than_180 (img : Image RGBA) : bool :=
  forallb (fun y =>
    forallb (fun x =>
      let '(r, g, b, a) := getpixel img (x, y) in
      Z.ltb 180 r && Z.ltb 180 g && Z.ltb 180 b && Z.eqb a 255)
      (seq 0 64)) (seq 0 64).

End Stretch.

(** ** Auxiliary definitions for the further properties *)

Module More.
Import PIL Codec.

(** The value of a lower-case hexadecimal digit. *)
Definition hex_value (c : ascii) : Z :=
  let n := Z.of_nat (nat_of_ascii c) in
  if (48 <=? n)%Z && (n <=? 57)%Z then (n - 48)%Z
  else if (97 <=? n)%Z && (n <=? 102)%Z then (n - 87)%Z
  else 0%Z.

(** Reading back the items of a row of the array: each item is [0x] and two
    digits, followed by a comma. *)
Fixpoint read_items (s : string) : list Z :=
  match s with
  | String _ (String _ (String h (String l (String _ rest)))) =>
      (16 * hex_value h + hex_value l)%Z :: read_items rest
  | _ => []
  end.

(** Reading back a whole row: four spaces, then the items. *)
Definition read_line (s : string) : list Z :=
  match s with
  | String _ (String _ (String _ (String _ rest))) => read_items rest
  | _ => []
  end.

(** *** Reading the emitted text back

    The lines of a text, as [str.split] at line feeds gives them. *)
Definition is_lf (c : ascii) : bool := Ascii.eqb c (ascii_of_nat 10).

Fixpoint has_lf (s : string) : bool :=
  match s with
  | EmptyString => false
  | String c s' => is_lf c || has_lf s'
  end.

Fixpoint text_lines (s : string) : list string :=
  match s with
  | EmptyString => [EmptyString]
  | String c s' =>
      if is_lf c then EmptyString :: text_lines s'
      else match text_lines s' with
           | [] => [String c EmptyString]
           | l :: ls => String c l :: ls
           end
  end.

Definition is_hex (c : ascii) : bool :=
  let n := nat_of_ascii c in
  (Nat.leb 48 n && Nat.leb n 57) || (Nat.leb 97 n && Nat.leb n 102).

(** The items of a row of a C array of bytes: each is [0x], two
    hexadecimal digits and a comma, with nothing between the items. Any
    other text is refused. *)
Fixpoint parse_items (s : string) : option (list Z) :=
  match s with
  | EmptyString => Some []
  | String z (String x (String h (String l (String c rest)))) =>
      if Ascii.eqb z "0"%char && Ascii.eqb x "x"%char && Ascii.eqb c ","%char
         && is_hex h && is_hex l
      then match parse_items rest with
           | Some bs => Some ((16 * hex_value h + hex_value l)%Z :: bs)
           | None => None
           end
      else None
  | _ => None
  end.

(** A row of the array: four spaces, then the items. *)
Definition parse_row (s : string) : option (list Z) :=
  match s with
  | String a (String b (String c (String d rest))) =>
      if Ascii.eqb a " "%char && Ascii.eqb b " "%char
         && Ascii.eqb c " "%char && Ascii.eqb d " "%char
      then parse_items rest
      else None
  | _ => None
  end.

(** A blob of 3072 bytes that is not constant. *)
Definition sample_blob : bytes :=
  map (fun n => Z.of_nat (n mod 251)) (seq 0 3072).

(** The exception that stops the driver's loop, if any: the one raised for
    the first item whose input exists and is not a 32x32 image. *)
Fixpoint first_error (files : gmap string file)
    (items : list (string * string)) : option exn :=
  match items with
  | [] => None
  | item :: rest =>
      match files !! png_path_of item.1 with
      | None => first_error files rest
      | Some (FText _) => Some UnidentifiedImageError
      | Some (FImage img) =>
          if decide (size img = (32, 32)) then first_error files rest
          else Some AssertionError
      end
  end.

End More.

(** ** Auxiliary definitions for the further properties of the pipeline *)

Module MoreGen.
Import PIL Generator Rerun.

(** A part that carries an image. *)
Definition is_image_part (part : Part) : bool :=
  match inline_data part with
  | Some blob => String.prefix "image/" (mime_type blob)
  | None => false
  end.

(** The raw image of an item exists. *)
Definition has_raw (files : gmap string bytes)
    (item : string * string * string) : bool :=
  bool_decide (is_Some (files !! raw_path_of (name_of item))).

(** The requests of a trace, oldest first. *)
Definition calls (tr : list event) : list Request :=
  omap (fun e => match e with Call req => Some req | _ => None end) tr.

Definition is_call (e : event) : bool :=
  match e with Call _ => true | _ => false end.

Section Service.

Variable generate_content : Request -> option Response.

(** The request sent for an item. *)
Definition request (ref : option bytes) (item : string * string * string)
  : Request :=
  mkRequest ref item.1.1 item.1.2 item.2.

(** What [generate_single_emoji] returns for an item: the first image of
    the first candidate of the answer, if the service answers and there is
    one. *)
Definition answer (ref : option bytes) (item : string * string * string)
  : option bytes :=
  match generate_content (request ref item) with
  | None => None
  | Some response =>
      match candidates response with
      | parts :: _ => first_image parts
      | [] => None
      end
  end.

(** What a successful task adds to the files: the payload, when it is not
    empty, at the raw path of the item. *)
Definition store (ref : option bytes) (m : gmap string bytes)
    (item : string * string * string) : gmap string bytes :=
  match answer ref item with
  | Some (b :: bs) => <[raw_path_of (name_of item) := b :: bs]> m
  | _ => m
  end.

End Service.

Section Decoding.

Variable open_rgba : bytes -> option (Image RGBA).

(** The raw image of an item is there and [Image.open] accepts it. *)
Definition decodes (files : gmap string bytes)
    (item : string * string * string) : bool :=
  match files !! raw_path_of (name_of item) with
  | Some raw => match open_rgba raw with Some _ => true | None => false end
  | None => false
  end.

End Decoding.

(** A sample service: its first candidate has a part without inline data, a
    text part and then a bright image; a second candidate has a dark image. *)
Definition answering (req : Request) : option Response :=
  Some (mkResponse
          [ [ mkPart None;
              mkPart (Some (mkBlob "text/plain" [7%Z]));
              mkPart (Some (mkBlob "image/png" [200%Z])) ];
            [ mkPart (Some (mkBlob "image/png" [90%Z])) ] ]).

Definition answering_main : gmap string bytes -> world :=
  Generator.main answering Sample.open_rgba Sample.paste Sample.convert_L
                 Sample.autocontrast Sample.resize Sample.save_png
                 Sample.render_html.

End MoreGen.

(** ** Properties of the encoder *)

Section Encoder.
Import PIL Codec Layout.

(** Appending in a loop is a [flat_map]. *)
Lemma fold_left_app_flat_map {A B : Type} (f : A -> list B) (l : list A)
    (acc : list B) :
  fold_left (fun acc x => acc ++ f x) l acc = acc ++ flat_map f l.
Proof.
  revert acc; induction l as [|a l IH]; intros acc; simpl.
  - by rewrite app_nil_r.
  - by rewrite IH, app_assoc.
Qed.

(** A loop whose body appends to both planes fills them with the
    concatenation of what each iteration appends. *)
Lemma fold_left_planes {A : Type} (step : planes -> A -> planes)
    (f g : A -> bytes) :
  (forall acc a, step acc a =
     mkPlanes (rgb565_data acc ++ f a) (alpha_data acc ++ g a)) ->
  forall l acc,
    fold_left step l acc =
    mkPlanes (rgb565_data acc ++ flat_map f l) (alpha_data acc ++ flat_map g l).
Proof.
  intros Hstep l. induction l as [|a l IH]; intros acc.
  - destruct acc as [c al]. cbn [fold_left flat_map rgb565_data alpha_data].
    rewrite !app_nil_r. reflexivity.
  - cbn [fold_left flat_map]. rewrite IH, Hstep.
    cbn [rgb565_data alpha_data]. rewrite <- !app_assoc. reflexivity.
Qed.

Lemma pixel_body_planes img y acc x :
  pixel_body img y acc x =
  mkPlanes (rgb565_data acc ++ color_pair (getpixel img (x, y)))
           (alpha_data acc ++ [alpha_of (getpixel img (x, y))]).
Proof.
  unfold pixel_body, color_pair, alpha_of, append.
  destruct (getpixel img (x, y)) as [[[r g] b] a].
  rewrite <- app_assoc. reflexivity.
Qed.

Lemma row_loop_planes img acc y :
  row_loop img acc y =
  mkPlanes
    (rgb565_data acc
       ++ flat_map (fun x => color_pair (getpixel img (x, y))) (seq 0 32))
    (alpha_data acc
       ++ flat_map (fun x => [alpha_of (getpixel img (x, y))]) (seq 0 32)).
Proof.
  unfold row_loop. apply fold_left_planes. intros; apply pixel_body_planes.
Qed.

Lemma pixel_loops_planes img :
  pixel_loops img = mkPlanes (color_plane img) (alpha_plane img).
Proof.
  unfold pixel_loops, color_plane, alpha_plane.
  rewrite (fold_left_planes (row_loop img)
             (fun y => flat_map (fun x => color_pair (getpixel img (x, y)))
                                (seq 0 32))
             (fun y => flat_map (fun x => [alpha_of (getpixel img (x, y))])
                                (seq 0 32))).
  - reflexivity.
  - intros; apply row_loop_planes.
Qed.

Lemma encode_planes img :
  size img = (32, 32) -> encode img = Ok (color_plane img ++ alpha_plane img).
Proof.
  intros Hsz. unfold encode. rewrite decide_True by exact Hsz.
  rewrite pixel_loops_planes. reflexivity.
Qed.

(** *** Indexing a concatenation of chunks of one length *)

Lemma length_flat_map_const {A B : Type} (f : A -> list B) (k : nat)
    (l : list A) :
  (forall a, length (f a) = k) -> length (flat_map f l) = length l * k.
Proof.
  intros Hk. induction l as [|a l IH]; [reflexivity|].
  cbn [flat_map]. rewrite length_app, Hk, IH. cbn [length]. lia.
Qed.

Lemma lookup_flat_map_seq {A : Type} (f : nat -> list A) (k : nat) :
  (forall i, length (f i) = k) ->
  forall n s i j, i < n -> j < k ->
    flat_map f (seq s n) !! (i * k + j) = f (s + i) !! j.
Proof.
  intros Hk n. induction n as [|n IH]; intros s i j Hi Hj; [lia|].
  cbn [seq flat_map]. destruct i as [|i].
  - rewrite lookup_app_l by (rewrite Hk; lia).
    replace (s + 0) with s by lia. f_equal.
  - rewrite lookup_app_r by (rewrite Hk; lia). rewrite Hk.
    replace (S i * k + j - k) with (i * k + j) by lia.
    rewrite IH by lia. replace (S s + i) with (s + S i) by lia. reflexivity.
Qed.

Lemma flat_map_ext_seq {A : Type} (f g : nat -> list A) (n s : nat) :
  (forall i, s <= i < s + n -> f i = g i) ->
  flat_map f (seq s n) = flat_map g (seq s n).
Proof.
  revert s; induction n as [|n IH]; intros s H; [reflexivity|].
  cbn [seq flat_map]. rewrite (H s) by lia. f_equal. apply IH.
  intros i Hi; apply H; lia.
Qed.

(** *** The planes *)

Lemma length_color_pair p : length (color_pair p) = 2.
Proof. by destruct p as [[[r g] b] a]. Qed.

Lemma length_color_row img y :
  length (flat_map (fun x => color_pair (getpixel img (x, y))) (seq 0 32)) = 64.
Proof.
  rewrite (length_flat_map_const _ 2) by (intros; apply length_color_pair).
  by rewrite length_seq.
Qed.

Lemma length_alpha_row img y :
  length (flat_map (fun x => [alpha_of (getpixel img (x, y))]) (seq 0 32)) = 32.
Proof.
  rewrite (length_flat_map_const _ 1) by done. by rewrite length_seq.
Qed.

Lemma length_color_plane img : length (color_plane img) = 2048.
Proof.
  unfold color_plane.
  rewrite (length_flat_map_const _ 64) by (intros; apply length_color_row).
  by rewrite length_seq.
Qed.

Lemma length_alpha_plane img : length (alpha_plane img) = 1024.
Proof.
  unfold alpha_plane.
  rewrite (length_flat_map_const _ 32) by (intros; apply length_alpha_row).
  by rewrite length_seq.
Qed.

Lemma color_plane_lookup img x y j :
  x < 32 -> y < 32 -> j < 2 ->
  color_plane img !! (2 * (32 * y + x) + j)
  = color_pair (getpixel img (x, y)) !! j.
Proof.
  intros Hx Hy Hj. unfold color_plane.
  replace (2 * (32 * y + x) + j) with (y * 64 + (x * 2 + j)) by lia.
  rewrite (lookup_flat_map_seq _ 64)
    by (try (intros; apply length_color_row); lia).
  rewrite (lookup_flat_map_seq _ 2)
    by (try (intros; apply length_color_pair); lia).
  reflexivity.
Qed.

Lemma alpha_plane_lookup img x y :
  x < 32 -> y < 32 ->
  alpha_plane img !! (32 * y + x) = Some (alpha_of (getpixel img (x, y))).
Proof.
  intros Hx Hy. unfold alpha_plane.
  replace (32 * y + x) with (y * 32 + (x * 1 + 0)) by lia.
  rewrite (lookup_flat_map_seq _ 32)
    by (try (intros; apply length_alpha_row); lia).
  rewrite (lookup_flat_map_seq _ 1) by (try done; lia).
  reflexivity.
Qed.

(** The three places of the blob that belong to pixel (x, y). *)
Lemma blob_lookup img x y :
  x < 32 -> y < 32 ->
  let blob := color_plane img ++ alpha_plane img in
  let '(r, g, b, a) := getpixel img (x, y) in
  blob !! (2 * (32 * y + x)) = Some (Z.land (rgb565_of r g b) 255)
  /\ blob !! (2 * (32 * y + x) + 1)
     = Some (Z.land (Z.shiftr (rgb565_of r g b) 8) 255)
  /\ blob !! (2048 + (32 * y + x)) = Some a.
Proof.
  intros Hx Hy blob. subst blob.
  pose proof (color_plane_lookup img x y 0 Hx Hy) as H0.
  pose proof (color_plane_lookup img x y 1 Hx Hy) as H1.
  pose proof (alpha_plane_lookup img x y Hx Hy) as Ha.
  pose proof (length_color_plane img) as Hlen.
  destruct (getpixel img (x, y)) as [[[r g] b] a].
  rewrite Nat.add_0_r in H0.
  split; [|split].
  - rewrite lookup_app_l by lia. rewrite H0 by lia. reflexivity.
  - rewrite lookup_app_l by lia. rewrite H1 by lia. reflexivity.
  - rewrite lookup_app_r by lia. rewrite Hlen.
    replace (2048 + (32 * y + x) - 2048) with (32 * y + x) by lia.
    exact Ha.
Qed.

(** *** The bit fields *)

(** Checked by running through the 32 * 64 * 32 field values. *)
Lemma all_fields_ok :
  forallb (fun r5 => forallb (fun g6 => forallb (fields_ok r5 g6) (zrange 32))
                             (zrange 64)) (zrange 32) = true.
Proof. vm_compute. reflexivity. Qed.

Lemma in_zrange (n : nat) (v : Z) :
  (0 <= v < Z.of_nat n)%Z -> In v (zrange n).
Proof.
  intros Hv. unfold zrange. apply in_map_iff. exists (Z.to_nat v).
  split; [lia|]. apply in_seq. lia.
Qed.

Lemma is_byte_range v : is_byte v = true -> (0 <= v < 256)%Z.
Proof. unfold is_byte. intros H. apply andb_prop in H. lia. Qed.

Lemma shiftr_byte_range v (k : Z) (n : nat) :
  is_byte v = true -> (0 <= k)%Z -> (256 = 2 ^ k * Z.of_nat n)%Z ->
  (0 <= Z.shiftr v k < Z.of_nat n)%Z.
Proof.
  intros Hv Hk Hn. apply is_byte_range in Hv.
  rewrite Z.shiftr_div_pow2 by exact Hk.
  assert (0 < 2 ^ k)%Z by (apply Z.pow_pos_nonneg; lia).
  split; [apply Z.div_pos; lia|].
  apply Z.div_lt_upper_bound; lia.
Qed.

Lemma fields_of_bytes r g b :
  is_byte r = true -> is_byte g = true -> is_byte b = true ->
  fields_ok (Z.shiftr r 3) (Z.shiftr g 2) (Z.shiftr b 3) = true.
Proof.
  intros Hr Hg Hb.
  assert (Ir : In (Z.shiftr r 3) (zrange 32))
    by (apply in_zrange, shiftr_byte_range; [done | lia | reflexivity]).
  assert (Ig : In (Z.shiftr g 2) (zrange 64))
    by (apply in_zrange, shiftr_byte_range; [done | lia | reflexivity]).
  assert (Ib : In (Z.shiftr b 3) (zrange 32))
    by (apply in_zrange, shiftr_byte_range; [done | lia | reflexivity]).
  pose proof all_fields_ok as H.
  rewrite forallb_forall in H. specialize (H _ Ir).
  rewrite forallb_forall in H. specialize (H _ Ig).
  rewrite forallb_forall in H. exact (H _ Ib).
Qed.

Lemma fields_ok_spec r5 g6 b5 :
  fields_ok r5 g6 b5 = true ->
  let c := Z.lor (Z.lor (Z.shiftl r5 11) (Z.shiftl g6 5)) b5 in
  let lo := Z.land c 255 in
  let hi := Z.land (Z.shiftr c 8) 255 in
  color16 lo hi = c /\ (lo + 256 * hi)%Z = c /\ (0 <= c < 65536)%Z
  /\ Z.shiftr c 11 = r5 /\ Z.land (Z.shiftr c 11) 31 = r5
  /\ Z.land (Z.shiftr c 5) 63 = g6 /\ Z.land c 31 = b5
  /\ is_byte lo = true /\ is_byte hi = true.
Proof.
  unfold fields_ok. intros H.
  repeat (apply andb_prop in H; destruct H as [H ?]).
  cbv zeta. repeat split; try lia; assumption.
Qed.

Lemma rgb565_fields r g b :
  is_byte r = true -> is_byte g = true -> is_byte b = true ->
  let c := rgb565_of r g b in
  let lo := Z.land c 255 in
  let hi := Z.land (Z.shiftr c 8) 255 in
  color16 lo hi = c /\ (lo + 256 * hi)%Z = c /\ (0 <= c < 65536)%Z
  /\ Z.shiftr c 11 = Z.shiftr r 3 /\ Z.land (Z.shiftr c 11) 31 = Z.shiftr r 3
  /\ Z.land (Z.shiftr c 5) 63 = Z.shiftr g 2 /\ Z.land c 31 = Z.shiftr b 3
  /\ is_byte lo = true /\ is_byte hi = true.
Proof.
  intros Hr Hg Hb. exact (fields_ok_spec _ _ _ (fields_of_bytes r g b Hr Hg Hb)).
Qed.

Lemma rgba_ok_bytes r g b a :
  rgba_ok (r, g, b, a) = true ->
  is_byte r = true /\ is_byte g = true /\ is_byte b = true /\ is_byte a = true.
Proof.
  unfold rgba_ok. cbv beta iota. intros H.
  apply andb_prop in H; destruct H as [H Ha].
  apply andb_prop in H; destruct H as [H Hb].
  apply andb_prop in H; destruct H as [Hr Hg].
  repeat split; assumption.
Qed.

End Encoder.

(** ** The encoder: colour values, layout and round trip *)

Section EncoderClaims.
Import PIL Codec Layout.

(** C3: for a 32x32 RGBA image and a pixel with 8-bit channels (r, g, b),
    the 16-bit colour value the encoder emits for that pixel (read back
    from its two bytes) is [(r >> 3) << 11 | (g >> 2) << 5 | (b >> 3)]:
    the low bits are dropped without rounding ([r >> 3] is the quotient
    [r / 8], and so on), red lies in bits 11-15, green in bits 5-10 and blue
    in bits 0-4. *)
Theorem encoder_color_value (img : Image RGBA) (x y : nat) (r g b a : Z) :
  size img = (32, 32) -> x < 32 -> y < 32 ->
  getpixel img (x, y) = (r, g, b, a) ->
  is_byte r = true -> is_byte g = true -> is_byte b = true ->
  exists blob lo hi,
    encode img = Ok blob
    /\ blob !! (2 * (32 * y + x)) = Some lo
    /\ blob !! (2 * (32 * y + x) + 1) = Some hi
    /\ let c := color16 lo hi in
       c = Z.lor (Z.lor (Z.shiftl (Z.shiftr r 3) 11)
                        (Z.shiftl (Z.shiftr g 2) 5)) (Z.shiftr b 3)
       /\ (Z.shiftr r 3 = r / 8 /\ Z.shiftr g 2 = g / 4
           /\ Z.shiftr b 3 = b / 8)%Z
       /\ (Z.land (Z.shiftr c 11) 31 = r / 8
           /\ Z.land (Z.shiftr c 5) 63 = g / 4
           /\ Z.land c 31 = b / 8)%Z
       /\ (0 <= c < 65536)%Z.
Proof.
  intros Hsz Hx Hy Hp Hr Hg Hb.
  pose proof (blob_lookup img x y Hx Hy) as Hl. cbv zeta in Hl.
  rewrite Hp in Hl. destruct Hl as (Hlo & Hhi & _).
  pose proof (rgb565_fields r g b Hr Hg Hb) as Hf. cbv zeta in Hf.
  destruct Hf as (Hc & _ & Hrange & _ & Hr5 & Hg6 & Hb5 & _).
  eexists _, _, _. split; [apply encode_planes; exact Hsz|].
  split; [exact Hlo|]. split; [exact Hhi|]. cbv zeta.
  rewrite Hc.
  assert (Hdr : (Z.shiftr r 3 = r / 8)%Z) by (by rewrite Z.shiftr_div_pow2).
  assert (Hdg : (Z.shiftr g 2 = g / 4)%Z) by (by rewrite Z.shiftr_div_pow2).
  assert (Hdb : (Z.shiftr b 3 = b / 8)%Z) by (by rewrite Z.shiftr_div_pow2).
  split; [reflexivity|]. split; [auto|].
  rewrite Hr5, Hg6, Hb5. auto.
Qed.

Lemma encoder_color_value_witness :
  exists blob lo hi,
    encode red_image = Ok blob
    /\ blob !! (2 * (32 * 3 + 5)) = Some lo
    /\ blob !! (2 * (32 * 3 + 5) + 1) = Some hi
    /\ let c := color16 lo hi in
       c = Z.lor (Z.lor (Z.shiftl (Z.shiftr 255 3) 11)
                        (Z.shiftl (Z.shiftr 0 2) 5)) (Z.shiftr 0 3)
       /\ (Z.shiftr 255 3 = 255 / 8 /\ Z.shiftr 0 2 = 0 / 4
           /\ Z.shiftr 0 3 = 0 / 8)%Z
       /\ (Z.land (Z.shiftr c 11) 31 = 255 / 8
           /\ Z.land (Z.shiftr c 5) 63 = 0 / 4
           /\ Z.land c 31 = 0 / 8)%Z
       /\ (0 <= c < 65536)%Z.
Proof.
  apply (encoder_color_value red_image 5 3 255 0 0 255);
    [reflexivity | lia | lia | reflexivity | reflexivity | reflexivity
    | reflexivity].
Defined.

(** C5: the blob of a 32x32 image is the whole colour plane (two bytes per
    pixel, row by row) followed by the whole alpha plane (one byte per
    pixel, row by row); the planes are not interleaved, and the blob has
    32 * 32 * 3 = 3072 bytes. *)
Theorem blob_is_color_plane_then_alpha_plane (img : Image RGBA) :
  size img = (32, 32) ->
  exists blob,
    encode img = Ok blob
    /\ length blob = 3072
    /\ blob = color_plane img ++ alpha_plane img
    /\ take 2048 blob = color_plane img
    /\ drop 2048 blob = alpha_plane img
    /\ length (take 2048 blob) = 2048
    /\ length (drop 2048 blob) = 1024
    /\ forall x y, x < 32 -> y < 32 ->
         let '(r, g, b, a) := getpixel img (x, y) in
         take 2048 blob !! (2 * (32 * y + x))
           = Some (Z.land (rgb565_of r g b) 255)
         /\ take 2048 blob !! (2 * (32 * y + x) + 1)
              = Some (Z.land (Z.shiftr (rgb565_of r g b) 8) 255)
         /\ drop 2048 blob !! (32 * y + x) = Some a.
Proof.
  intros Hsz. exists (color_plane img ++ alpha_plane img).
  pose proof (length_color_plane img) as Hc.
  pose proof (length_alpha_plane img) as Ha.
  rewrite (take_app_length' _ _ 2048) by (symmetry; exact Hc).
  rewrite (drop_app_length' _ _ 2048) by (symmetry; exact Hc).
  split; [apply encode_planes; exact Hsz|].
  split; [rewrite length_app, Hc, Ha; reflexivity|].
  do 3 (split; [reflexivity|]). split; [exact Hc|]. split; [exact Ha|].
  intros x y Hx Hy.
  pose proof (blob_lookup img x y Hx Hy) as Hl. cbv zeta in Hl.
  destruct (getpixel img (x, y)) as [[[r g] b] a].
  destruct Hl as (Hlo & Hhi & Hal).
  rewrite lookup_app_l in Hlo by lia. rewrite lookup_app_l in Hhi by lia.
  rewrite lookup_app_r in Hal by lia. rewrite Hc in Hal.
  replace (2048 + (32 * y + x) - 2048) with (32 * y + x) in Hal by lia.
  auto.
Qed.

Lemma blob_is_color_plane_then_alpha_plane_witness :
  exists blob,
    encode red_image = Ok blob
    /\ length blob = 3072
    /\ blob = color_plane red_image ++ alpha_plane red_image
    /\ take 2048 blob = color_plane red_image
    /\ drop 2048 blob = alpha_plane red_image
    /\ length (take 2048 blob) = 2048
    /\ length (drop 2048 blob) = 1024
    /\ forall x y, x < 32 -> y < 32 ->
         let '(r, g, b, a) := getpixel red_image (x, y) in
         take 2048 blob !! (2 * (32 * y + x))
           = Some (Z.land (rgb565_of r g b) 255)
         /\ take 2048 blob !! (2 * (32 * y + x) + 1)
              = Some (Z.land (Z.shiftr (rgb565_of r g b) 8) 255)
         /\ drop 2048 blob !! (32 * y + x) = Some a.
Proof.
  apply (blob_is_color_plane_then_alpha_plane red_image). reflexivity.
Defined.

(** C4: decoding the blob of a valid 32x32 image, by the documented layout,
    gives back the alpha of every pixel exactly and, for the colour, exactly
    the 5/6/5-bit truncation of the original red, green and blue. *)
Theorem decode_encode_is_truncation (img : Image RGBA) :
  valid_image img ->
  exists blob,
    encode img = Ok blob
    /\ size (decode blob) = (32, 32)
    /\ forall x y, x < 32 -> y < 32 ->
         getpixel (decode blob) (x, y) = truncate (getpixel img (x, y))
         /\ alpha_of (getpixel (decode blob) (x, y))
            = alpha_of (getpixel img (x, y)).
Proof.
  intros [Hsz Hok]. exists (color_plane img ++ alpha_plane img).
  split; [apply encode_planes; exact Hsz|]. split; [reflexivity|].
  intros x y Hx Hy.
  pose proof (blob_lookup img x y Hx Hy) as Hl. cbv zeta in Hl.
  specialize (Hok x y Hx Hy).
  assert (Hpix : getpixel (decode (color_plane img ++ alpha_plane img)) (x, y)
                 = truncate (getpixel img (x, y))).
  { destruct (getpixel img (x, y)) as [[[r g] b] a].
    destruct Hl as (Hlo & Hhi & Hal).
    apply rgba_ok_bytes in Hok. destruct Hok as (Hr & Hg & Hb & _).
    pose proof (rgb565_fields r g b Hr Hg Hb) as Hf. cbv zeta in Hf.
    destruct Hf as (Hc & _ & _ & _ & Hr5 & Hg6 & Hb5 & _).
    unfold decode, truncate. cbn [getpixel].
    rewrite (nth_lookup_Some _ _ _ _ Hlo), (nth_lookup_Some _ _ _ _ Hhi),
      (nth_lookup_Some _ _ _ _ Hal).
    rewrite Hc, Hr5, Hg6, Hb5. reflexivity. }
  split; [exact Hpix|]. rewrite Hpix.
  destruct (getpixel img (x, y)) as [[[r g] b] a]. reflexivity.
Qed.

Lemma decode_encode_is_truncation_witness :
  valid_image red_image /\
  exists blob,
    encode red_image = Ok blob
    /\ size (decode blob) = (32, 32)
    /\ forall x y, x < 32 -> y < 32 ->
         getpixel (decode blob) (x, y) = truncate (getpixel red_image (x, y))
         /\ alpha_of (getpixel (decode blob) (x, y))
            = alpha_of (getpixel red_image (x, y)).
Proof.
  assert (H : valid_image red_image)
    by (split; [reflexivity | intros; reflexivity]).
  split; [exact H | exact (decode_encode_is_truncation red_image H)].
Defined.

Lemma land_255_mod c : Z.land c 255 = (c mod 256)%Z.
Proof. change 255%Z with (Z.ones 8). by rewrite Z.land_ones. Qed.

(** C6: the two bytes of a colour value are emitted low byte first: the
    first is the value modulo 256 and the second its quotient by 256. The
    blob of the 32x32 image that is opaque pure red everywhere has a colour
    plane of 1024 pairs 0x00, 0xF8 (2048 bytes) and an alpha plane of 1024
    bytes 0xFF. *)
Theorem color_bytes_little_endian :
  (forall (img : Image RGBA) (x y : nat),
     size img = (32, 32) -> x < 32 -> y < 32 ->
     rgba_ok (getpixel img (x, y)) = true ->
     exists blob lo hi,
       encode img = Ok blob
       /\ blob !! (2 * (32 * y + x)) = Some lo
       /\ blob !! (2 * (32 * y + x) + 1) = Some hi
       /\ let '(r, g, b, _) := getpixel img (x, y) in
          (lo = rgb565_of r g b mod 256
           /\ hi = rgb565_of r g b / 256
           /\ lo + 256 * hi = rgb565_of r g b)%Z)
  /\ exists blob,
       encode red_image = Ok blob
       /\ take 2048 blob = concat (repeat [0; 248]%Z 1024)
       /\ drop 2048 blob = repeat 255%Z 1024
       /\ length (take 2048 blob) = 2048
       /\ length (drop 2048 blob) = 1024.
Proof.
  split.
  - intros img x y Hsz Hx Hy Hok.
    pose proof (blob_lookup img x y Hx Hy) as Hl. cbv zeta in Hl.
    destruct (getpixel img (x, y)) as [[[r g] b] a].
    destruct Hl as (Hlo & Hhi & _).
    apply rgba_ok_bytes in Hok. destruct Hok as (Hr & Hg & Hb & _).
    pose proof (rgb565_fields r g b Hr Hg Hb) as Hf. cbv zeta in Hf.
    destruct Hf as (_ & Hsum & Hrange & _).
    eexists _, _, _. split; [apply encode_planes; exact Hsz|].
    split; [exact Hlo|]. split; [exact Hhi|].
    rewrite land_255_mod in Hsum |- *.
    split; [reflexivity|]. split; [|exact Hsum].
    pose proof (Z.div_mod (rgb565_of r g b) 256 ltac:(lia)). lia.
  - eexists. split; [vm_compute; reflexivity|].
    repeat split; vm_compute; reflexivity.
Qed.

Lemma color_bytes_little_endian_witness :
  exists blob lo hi,
    encode red_image = Ok blob
    /\ blob !! (2 * (32 * 31 + 31)) = Some lo
    /\ blob !! (2 * (32 * 31 + 31) + 1) = Some hi
    /\ let '(r, g, b, _) := getpixel red_image (31, 31) in
       (lo = rgb565_of r g b mod 256
        /\ hi = rgb565_of r g b / 256
        /\ lo + 256 * hi = rgb565_of r g b)%Z.
Proof.
  apply (proj1 color_bytes_little_endian red_image 31 31);
    [reflexivity | lia | lia | reflexivity].
Defined.

Lemma color_pair_rgb p q : rgb_of p = rgb_of q -> color_pair p = color_pair q.
Proof.
  destruct p as [[[r g] b] a], q as [[[r' g'] b'] a']. unfold rgb_of.
  intros [= -> -> ->]. reflexivity.
Qed.

Lemma color_plane_ext img1 img2 :
  (forall x y, x < 32 -> y < 32 ->
     rgb_of (getpixel img1 (x, y)) = rgb_of (getpixel img2 (x, y))) ->
  color_plane img1 = color_plane img2.
Proof.
  intros H. unfold color_plane. apply flat_map_ext_seq. intros y Hy.
  apply flat_map_ext_seq. intros x Hx. apply color_pair_rgb, H; lia.
Qed.

Lemma alpha_plane_ext img1 img2 :
  (forall x y, x < 32 -> y < 32 ->
     alpha_of (getpixel img1 (x, y)) = alpha_of (getpixel img2 (x, y))) ->
  alpha_plane img1 = alpha_plane img2.
Proof.
  intros H. unfold alpha_plane. apply flat_map_ext_seq. intros y Hy.
  apply flat_map_ext_seq. intros x Hx. f_equal. apply H; lia.
Qed.

(** C10: two 32x32 images with the same red, green and blue at every pixel
    have the same colour plane (first 2048 bytes), whatever their alpha; two
    images with the same alpha at every pixel have the same alpha plane
    (last 1024 bytes), whatever their colours. *)
Theorem planes_depend_on_their_channels_only (img1 img2 : Image RGBA) :
  size img1 = (32, 32) -> size img2 = (32, 32) ->
  exists blob1 blob2,
    encode img1 = Ok blob1 /\ encode img2 = Ok blob2
    /\ ((forall x y, x < 32 -> y < 32 ->
           rgb_of (getpixel img1 (x, y)) = rgb_of (getpixel img2 (x, y))) ->
        take 2048 blob1 = take 2048 blob2)
    /\ ((forall x y, x < 32 -> y < 32 ->
           alpha_of (getpixel img1 (x, y)) = alpha_of (getpixel img2 (x, y))) ->
        drop 2048 blob1 = drop 2048 blob2).
Proof.
  intros Hsz1 Hsz2.
  exists (color_plane img1 ++ alpha_plane img1),
         (color_plane img2 ++ alpha_plane img2).
  split; [apply encode_planes; exact Hsz1|].
  split; [apply encode_planes; exact Hsz2|].
  rewrite !(take_app_length' _ _ 2048), !(drop_app_length' _ _ 2048)
    by (symmetry; apply length_color_plane).
  split; [apply color_plane_ext | apply alpha_plane_ext].
Qed.

Lemma planes_depend_on_their_channels_only_witness :
  (exists blob1 blob2,
     encode red_image = Ok blob1 /\ encode clear_red_image = Ok blob2
     /\ take 2048 blob1 = take 2048 blob2)
  /\ (exists blob1 blob2,
        encode red_image = Ok blob1 /\ encode blue_image = Ok blob2
        /\ drop 2048 blob1 = drop 2048 blob2).
Proof.
  split.
  - destruct (planes_depend_on_their_channels_only red_image clear_red_image
                eq_refl eq_refl) as (b1 & b2 & H1 & H2 & Hc & _).
    exists b1, b2. split; [exact H1|]. split; [exact H2|].
    apply Hc. intros x y _ _. reflexivity.
  - destruct (planes_depend_on_their_channels_only red_image blue_image
                eq_refl eq_refl) as (b1 & b2 & H1 & H2 & _ & Ha).
    exists b1, b2. split; [exact H1|]. split; [exact H2|].
    apply Ha. intros x y _ _. reflexivity.
Defined.

End EncoderClaims.

(** ** The emitter of the C source text *)

Section Emitter.
Import PIL Codec Layout.

(** Cutting a list into [n] consecutive chunks of [k] elements. *)
Lemma concat_chunks {A : Type} (k n : nat) (l : list A) :
  concat (map (fun i => take k (drop (i * k) l)) (seq 0 n)) = take (n * k) l.
Proof.
  revert l; induction n as [|n IH]; intros l; [reflexivity|].
  cbn [seq map concat]. rewrite <- seq_shift, map_map.
  rewrite (map_ext _ (fun i => take k (drop (i * k) (drop k l)))).
  - rewrite IH. cbn [Nat.mul drop]. apply take_take_drop.
  - intros i. rewrite drop_drop. do 2 f_equal.
Qed.

Lemma length_chunk {A : Type} (k s : nat) (l : list A) :
  s + k <= length l -> length (take k (drop s l)) = k.
Proof. intros H. rewrite length_take, length_drop. lia. Qed.

Lemma color_rows_chunks data :
  color_rows data = map (fun i => take 64 (drop (i * 64) data)) (seq 0 32).
Proof.
  unfold color_rows, slice. apply map_ext. intros row. cbv zeta.
  replace (row * 64 + 64 - row * 64) with 64 by lia. reflexivity.
Qed.

Lemma alpha_rows_chunks data :
  alpha_rows data
  = map (fun i => take 32 (drop (i * 32) (drop 2048 data))) (seq 0 32).
Proof.
  unfold alpha_rows, slice. apply map_ext. intros row. cbv zeta.
  change alpha_offset with 2048.
  replace (2048 + row * 32 + 32 - (2048 + row * 32)) with 32 by lia.
  rewrite drop_drop. reflexivity.
Qed.

Lemma lookup_map {A B : Type} (f : A -> B) (l : list A) (i : nat) :
  map f l !! i = f <$> (l !! i).
Proof. revert i; induction l as [|a l IH]; intros [|i]; cbn; auto. Qed.

Lemma lookup_chunks {A : Type} (k n i : nat) (l : list A) :
  i < n ->
  map (fun i => take k (drop (i * k) l)) (seq 0 n) !! i
  = Some (take k (drop (i * k) l)).
Proof.
  intros Hi. rewrite lookup_map, lookup_seq_lt by exact Hi.
  reflexivity.
Qed.

Lemma Forall_chunks {A : Type} (k n : nat) (l : list A) :
  n * k <= length l ->
  Forall (fun row => length row = k)
         (map (fun i => take k (drop (i * k) l)) (seq 0 n)).
Proof.
  intros Hl. apply List.Forall_forall. intros row Hrow.
  apply in_map_iff in Hrow. destruct Hrow as (i & <- & Hi).
  apply in_seq in Hi. apply length_chunk. nia.
Qed.

Lemma pretty_3072 : pretty 3072 = "3072".
Proof. vm_compute. reflexivity. Qed.

Lemma length_color_rows data : length (color_rows data) = 32.
Proof. by rewrite color_rows_chunks, length_map, length_seq. Qed.

Lemma length_alpha_rows data : length (alpha_rows data) = 32.
Proof. by rewrite alpha_rows_chunks, length_map, length_seq. Qed.

Lemma length_generate_c_lines emotion_name unicode_cp data :
  length (generate_c_lines emotion_name unicode_cp data) = 100.
Proof.
  unfold generate_c_lines.
  rewrite !length_app, !length_map, length_color_rows, length_alpha_rows.
  reflexivity.
Qed.

(** The lines printed by the two loops, whatever the data are. *)
Lemma lines_color_row emotion_name unicode_cp data y :
  y < 32 ->
  generate_c_lines emotion_name unicode_cp data !! (22 + y)
  = Some (hex_line (take 64 (drop (64 * y) data))).
Proof.
  intros Hy. unfold generate_c_lines.
  rewrite lookup_app_r by (cbn [length prologue]; lia).
  replace (22 + y - length (prologue unicode_cp)) with y
    by (cbn [length prologue]; lia).
  rewrite lookup_app_l by (rewrite length_map, length_color_rows; lia).
  rewrite lookup_map, color_rows_chunks, lookup_chunks by exact Hy.
  by replace (y * 64) with (64 * y) by lia.
Qed.

Lemma lines_alpha_row emotion_name unicode_cp data y :
  y < 32 ->
  generate_c_lines emotion_name unicode_cp data !! (54 + y)
  = Some (hex_line (take 32 (drop (2048 + 32 * y) data))).
Proof.
  intros Hy. unfold generate_c_lines.
  rewrite lookup_app_r by (cbn [length prologue]; lia).
  rewrite lookup_app_r
    by (rewrite length_map, length_color_rows; cbn [length prologue]; lia).
  replace (54 + y - length (prologue unicode_cp)
           - length (map hex_line (color_rows data))) with y
    by (rewrite length_map, length_color_rows; cbn [length prologue]; lia).
  rewrite lookup_app_l by (rewrite length_map, length_alpha_rows; lia).
  rewrite lookup_map, alpha_rows_chunks, lookup_chunks by exact Hy.
  rewrite drop_drop. by replace (2048 + y * 32) with (2048 + 32 * y) by lia.
Qed.

(** The lines before the record and the record. *)
Lemma lines_split emotion_name unicode_cp data :
  generate_c_lines emotion_name unicode_cp data
  = (prologue unicode_cp ++ map hex_line (color_rows data)
       ++ map hex_line (alpha_rows data))
    ++ epilogue unicode_cp data
  /\ length (prologue unicode_cp ++ map hex_line (color_rows data)
               ++ map hex_line (alpha_rows data)) = 86.
Proof.
  split.
  - unfold generate_c_lines. by rewrite <- !app_assoc.
  - rewrite !length_app, !length_map, length_color_rows, length_alpha_rows.
    reflexivity.
Qed.

Lemma chunk_of_take {A : Type} (k s n : nat) (l : list A) :
  s + k <= n -> take k (drop s (take n l)) = take k (drop s l).
Proof.
  intros H. rewrite !take_drop_commute, take_take.
  by replace (min (s + k) n) with (s + k) by lia.
Qed.

Lemma color_rows_take data : color_rows (take 3072 data) = color_rows data.
Proof.
  rewrite !color_rows_chunks. apply map_ext_in. intros y Hy.
  apply in_seq in Hy. apply chunk_of_take. lia.
Qed.

Lemma alpha_rows_take data : alpha_rows (take 3072 data) = alpha_rows data.
Proof.
  rewrite !alpha_rows_chunks. apply map_ext_in. intros y Hy.
  apply in_seq in Hy. rewrite !drop_drop. apply chunk_of_take. lia.
Qed.

Lemma rows_concat (data : bytes) :
  concat (map (fun y => take 64 (drop (64 * y) data)) (seq 0 32))
    ++ concat (map (fun y => take 32 (drop (2048 + 32 * y) data)) (seq 0 32))
  = take 3072 data.
Proof.
  rewrite (map_ext _ (fun i => take 64 (drop (i * 64) data)))
    by (intros y; by replace (64 * y) with (y * 64) by lia).
  rewrite (map_ext (fun y => take 32 (drop (2048 + 32 * y) data))
                   (fun i => take 32 (drop (i * 32) (drop 2048 data))))
    by (intros y; rewrite drop_drop;
        by replace (2048 + 32 * y) with (2048 + y * 32) by lia).
  rewrite (concat_chunks 64 32), (concat_chunks 32 32).
  apply (take_take_drop data 2048 1024).
Qed.

End Emitter.

(** ** The batch driver of the codec *)

Section Driver.
Import PIL Codec Layout Batch.

Lemma string_length_app (a b : string) :
  String.length (a +:+ b) = String.length a + String.length b.
Proof.
  induction a as [|c a IH]; [reflexivity|].
  simpl. by rewrite IH.
Qed.

Lemma string_app_inv_tail (a b s : string) : a +:+ s = b +:+ s -> a = b.
Proof.
  revert b. induction a as [|c a IH]; intros [|d b] H.
  - reflexivity.
  - apply (f_equal String.length) in H.
    rewrite !string_length_app in H. simpl in H. lia.
  - apply (f_equal String.length) in H.
    rewrite !string_length_app in H. simpl in H. lia.
  - change (String c (a +:+ s) = String d (b +:+ s)) in H.
    injection H as -> H. f_equal. by apply IH.
Qed.

Lemma out_path_ne_png_path cp name : out_path_of cp <> png_path_of name.
Proof. cbn. discriminate. Qed.

Lemma out_path_of_inj cp cp' : out_path_of cp = out_path_of cp' -> cp = cp'.
Proof.
  cbn. intros H. simplify_eq. by eapply string_app_inv_tail.
Qed.

Lemma length_encode img data : encode img = Ok data -> length data = 3072.
Proof.
  unfold encode. case_decide as Hsz; [|discriminate].
  rewrite pixel_loops_planes. cbn [rgb565_data alpha_data].
  intros [= <-]. by rewrite length_app, length_color_plane, length_alpha_plane.
Qed.

Lemma input_okb_spec files item :
  input_okb files item = true ->
  (files !! png_path_of item.1 = None /\ present files item = false)
  \/ (exists img, files !! png_path_of item.1 = Some (FImage img)
                  /\ size img = (32, 32) /\ present files item = true).
Proof.
  unfold input_okb, present.
  destruct (files !! png_path_of item.1) as [[img|t]|] eqn:E.
  - intros H%bool_decide_eq_true. right. exists img.
    split; [reflexivity|]. split; [exact H|].
    apply bool_decide_eq_true. by eexists.
  - discriminate.
  - intros _. left. split; [reflexivity|].
    apply bool_decide_eq_false. by intros [? ?].
Qed.

Lemma emit_cons files item rest m :
  emit files (item :: rest) m = emit files rest (emit_one files m item).
Proof. reflexivity. Qed.

Lemma emit_one_missing files m item :
  files !! png_path_of item.1 = None -> emit_one files m item = m.
Proof. unfold emit_one. by intros ->. Qed.

Lemma emit_one_image files m item img data :
  files !! png_path_of item.1 = Some (FImage img) -> encode img = Ok data ->
  emit_one files m item
  = <[out_path_of item.2 := FText (generate_c_file item.1 item.2 data)]> m.
Proof. unfold emit_one. by intros -> ->. Qed.

Lemma report_cons files item rest :
  report files (item :: rest)
  = (if present files item
     then [MsgConverting item.1 item.2; MsgWritten 3072]
     else [MsgMissing item.1]) ++ report files rest.
Proof. reflexivity. Qed.

(** The loop over items whose inputs are all fine runs to its end. *)
Lemma convert_loop_ok files items :
  forallb (input_okb files) items = true ->
  forall st,
    (forall name, fs st !! png_path_of name = files !! png_path_of name) ->
    convert_loop items st
    = (mkState (emit files items (fs st))
               (stdout st ++ report files items)
               (converted st + length (List.filter (present files) items)),
       None).
Proof.
  induction items as [|[name cp] rest IH]; intros Hok st Hagree.
  - cbn. rewrite app_nil_r, Nat.add_0_r. by destruct st.
  - cbn [forallb] in Hok. apply andb_prop in Hok. destruct Hok as [Hit Hrest].
    cbn [convert_loop]. rewrite Hagree.
    apply input_okb_spec in Hit. cbn [fst] in Hit.
    rewrite emit_cons, report_cons. cbn [List.filter].
    destruct Hit as [[Hnone Hpres] | (img & Hsome & Hsz & Hpres)].
    + rewrite Hnone, Hpres. rewrite (IH Hrest) by exact Hagree.
      rewrite (emit_one_missing files _ (name, cp) Hnone).
      cbn [print fs stdout converted fst]. by rewrite <- app_assoc.
    + rewrite Hsome, Hpres. unfold png_to_rgb565a8. cbn [print fs].
      rewrite Hagree, Hsome.
      pose proof (encode_planes img Hsz) as Henc. rewrite Henc.
      rewrite (IH Hrest).
      2:{ intros n. cbn [write_text print fs].
          rewrite lookup_insert_ne by apply out_path_ne_png_path.
          apply Hagree. }
      rewrite (emit_one_image files _ (name, cp) img _ Hsome Henc).
      cbn [write_text print fs stdout converted length fst snd].
      rewrite (length_encode img _ Henc).
      rewrite <- !app_assoc. do 2 f_equal. lia.
Qed.

Lemma convert_loop_app items1 items2 st :
  convert_loop (items1 ++ items2) st
  = match convert_loop items1 st with
    | (st', None) => convert_loop items2 st'
    | (st', Some e) => (st', Some e)
    end.
Proof.
  revert st. induction items1 as [|[name cp] rest IH]; intros st.
  - reflexivity.
  - cbn [app convert_loop].
    destruct (fs st !! png_path_of name); [|apply IH].
    destruct (png_to_rgb565a8 _ _); [apply IH | reflexivity].
Qed.

(** Lookups in the directory after the outputs have been written. *)
Lemma emit_lookup_other files items m p :
  (forall item, In item items -> out_path_of item.2 <> p) ->
  emit files items m !! p = m !! p.
Proof.
  unfold emit. revert m. induction items as [|item rest IH]; intros m Hne.
  - reflexivity.
  - cbn [fold_left]. rewrite IH by (intros; apply Hne; by right).
    unfold emit_one. destruct (files !! png_path_of item.1) as [[img|t]|];
      try reflexivity.
    destruct (encode img); [|reflexivity].
    apply lookup_insert_ne, Hne. by left.
Qed.

Lemma emit_lookup_missing files items m cp :
  (forall item, In item items -> item.2 = cp ->
                files !! png_path_of item.1 = None) ->
  emit files items m !! out_path_of cp = m !! out_path_of cp.
Proof.
  unfold emit. revert m. induction items as [|item rest IH]; intros m Hmiss.
  - reflexivity.
  - cbn [fold_left]. rewrite IH by (intros; apply Hmiss; [by right|done]).
    unfold emit_one.
    destruct (files !! png_path_of item.1) as [[img|t]|] eqn:E;
      try reflexivity.
    destruct (encode img); [|reflexivity].
    apply lookup_insert_ne. intros Heq%out_path_of_inj.
    rewrite (Hmiss item) in E; [discriminate | by left | exact Heq].
Qed.

Lemma emit_lookup_present files items m name cp img data :
  NoDup (map snd items) -> In (name, cp) items ->
  files !! png_path_of name = Some (FImage img) -> encode img = Ok data ->
  emit files items m !! out_path_of cp
  = Some (FText (generate_c_file name cp data)).
Proof.
  unfold emit. revert m. induction items as [|item rest IH];
    intros m Hnd Hin Hf Henc; [destruct Hin|].
  cbn [map] in Hnd. apply NoDup_cons in Hnd. destruct Hnd as [Hnotin Hnd].
  cbn [fold_left]. destruct Hin as [-> | Hin].
  - fold (emit files rest (emit_one files m (name, cp))).
    rewrite emit_lookup_other.
    + unfold emit_one. cbn [fst snd]. rewrite Hf, Henc.
      apply lookup_insert_eq.
    + intros item Hitem Heq%out_path_of_inj. apply Hnotin.
      cbn [snd] in Heq |- *. rewrite <- Heq. apply list_elem_of_In.
      apply in_map. exact Hitem.
  - by apply IH.
Qed.

Lemma NoDup_EMOJI_MAP_codes : NoDup (map snd EMOJI_MAP).
Proof. apply (bool_decide_unpack _). vm_compute. exact I. Qed.

Lemma reported_missing_report files items :
  reported_missing (report files items) = missing_names files items.
Proof.
  unfold reported_missing, report, missing_names.
  induction items as [|item rest IH]; [reflexivity|].
  cbn [flat_map List.filter]. destruct (present files item); cbn; by rewrite IH.
Qed.

Lemma reported_missing_app out1 out2 :
  reported_missing (out1 ++ out2)
  = reported_missing out1 ++ reported_missing out2.
Proof. unfold reported_missing. apply omap_app. Qed.

Lemma length_present_missing files items :
  length (List.filter (present files) items)
  + length (missing_names files items) = length items.
Proof.
  unfold missing_names. rewrite length_map.
  induction items as [|item rest IH]; [reflexivity|].
  cbn [List.filter]. destruct (present files item); cbn; lia.
Qed.

Lemma NoDup_snd_eq {A B : Type} (l : list (A * B)) (a b : A * B) :
  NoDup (map snd l) -> In a l -> In b l -> a.2 = b.2 -> a = b.
Proof.
  induction l as [|c l IH]; intros Hnd Ha Hb Heq; [destruct Ha|].
  cbn [map] in Hnd. apply NoDup_cons in Hnd. destruct Hnd as [Hc Hnd].
  destruct Ha as [-> | Ha], Hb as [-> | Hb].
  - reflexivity.
  - exfalso. apply Hc. rewrite Heq. apply list_elem_of_In, in_map, Hb.
  - exfalso. apply Hc. rewrite <- Heq. apply list_elem_of_In, in_map, Ha.
  - by apply IH.
Qed.

Lemma main_ok files :
  forallb (input_okb files) EMOJI_MAP = true ->
  main files
  = (mkState (emit files EMOJI_MAP files)
             (report files EMOJI_MAP
                ++ [MsgSummary (length (List.filter (present files) EMOJI_MAP))
                               (length EMOJI_MAP)])
             (length (List.filter (present files) EMOJI_MAP)),
     None).
Proof.
  intros Hok. unfold main.
  rewrite (convert_loop_ok files EMOJI_MAP Hok (mkState files [] 0))
    by reflexivity.
  reflexivity.
Qed.

(** C7: when the inputs that exist are 32x32 images, the run ends normally;
    the names it reports as missing are exactly the names of the items
    whose input does not exist, and for every item whose input exists the C
    file of that item is written. Nothing is written for a missing item,
    and the numbers of written and of missing items add up to 21. *)
Theorem missing_inputs_are_reported_and_skipped (files : gmap string file) :
  forallb (input_okb files) EMOJI_MAP = true ->
  exists st,
    main files = (st, None)
    /\ reported_missing (stdout st) = missing_names files EMOJI_MAP
    /\ converted st = length (List.filter (present files) EMOJI_MAP)
    /\ converted st + length (missing_names files EMOJI_MAP) = 21
    /\ (forall name cp,
          In (name, cp) EMOJI_MAP -> present files (name, cp) = true ->
          exists img data,
            files !! png_path_of name = Some (FImage img)
            /\ encode img = Ok data
            /\ fs st !! out_path_of cp
               = Some (FText (generate_c_file name cp data)))
    /\ (forall name cp,
          In (name, cp) EMOJI_MAP -> present files (name, cp) = false ->
          fs st !! out_path_of cp = files !! out_path_of cp)
    /\ (forall name, fs st !! png_path_of name = files !! png_path_of name).
Proof.
  intros Hok. eexists. split; [apply main_ok; exact Hok|].
  cbn [stdout converted fs].
  split.
  { rewrite reported_missing_app, reported_missing_report.
    apply app_nil_r. }
  split; [reflexivity|].
  split; [apply (length_present_missing files EMOJI_MAP)|].
  split.
  { intros name cp Hin Hpres.
    pose proof (proj1 (forallb_forall _ _) Hok _ Hin) as Hit.
    apply input_okb_spec in Hit. cbn [fst] in Hit.
    destruct Hit as [[_ Hno] | (img & Hsome & Hsz & _)]; [congruence|].
    exists img, (color_plane img ++ alpha_plane img).
    pose proof (encode_planes img Hsz) as Henc.
    split; [exact Hsome|]. split; [exact Henc|].
    exact (emit_lookup_present files EMOJI_MAP files name cp img _
             NoDup_EMOJI_MAP_codes Hin Hsome Henc). }
  split.
  { intros name cp Hin Hpres. apply emit_lookup_missing.
    intros item Hitem Heq.
    rewrite (NoDup_snd_eq EMOJI_MAP item (name, cp)
               NoDup_EMOJI_MAP_codes Hitem Hin Heq).
    cbn [fst]. unfold present in Hpres. cbn [fst] in Hpres.
    apply bool_decide_eq_false in Hpres.
    destruct (files !! png_path_of name) eqn:E; [|reflexivity].
    exfalso. apply Hpres. by eexists. }
  intros name. apply emit_lookup_other. intros item _.
  apply out_path_ne_png_path.
Qed.

Lemma missing_inputs_are_reported_and_skipped_witness :
  exists st,
    main two_missing = (st, None)
    /\ reported_missing (stdout st) = ["sad"; "cool"]
    /\ converted st = 19
    /\ fs st !! out_path_of "1f614" = None
    /\ fs st !! out_path_of "1f60e" = None.
Proof.
  destruct (missing_inputs_are_reported_and_skipped two_missing)
    as (st & Hmain & Hrep & Hconv & _ & _ & Hmiss & _);
    [vm_compute; reflexivity|].
  exists st. split; [exact Hmain|].
  split; [rewrite Hrep; vm_compute; reflexivity|].
  split; [rewrite Hconv; vm_compute; reflexivity|].
  split.
  - rewrite (Hmiss "sad" "1f614"); vm_compute; auto 10.
  - rewrite (Hmiss "cool" "1f60e"); vm_compute; auto 20.
Defined.

(** C2, as the code has it: when the input of an item exists but is not a
    32x32 image, the size assertion fails and nothing catches it. If the
    items before it are fine, the run stops at that item with the
    assertion error, having written the outputs of the earlier items whose
    input exists; the last line printed announces the conversion of the
    failing item, and neither that item nor any later one gets an output. *)
Theorem wrong_size_stops_the_run (files : gmap string file)
    (before after : list (string * string)) (name cp : string)
    (img : Image RGBA) :
  EMOJI_MAP = before ++ (name, cp) :: after ->
  forallb (input_okb files) before = true ->
  files !! png_path_of name = Some (FImage img) ->
  size img <> (32, 32) ->
  encode img = Raise AssertionError
  /\ exists st,
       main files = (st, Some AssertionError)
       /\ stdout st = report files before ++ [MsgConverting name cp]
       /\ converted st = length (List.filter (present files) before)
       /\ fs st = emit files before files
       /\ forall name' cp',
            In (name', cp') ((name, cp) :: after) ->
            fs st !! out_path_of cp' = files !! out_path_of cp'.
Proof.
  intros Hsplit Hok Hsome Hsz.
  assert (Henc : encode img = Raise AssertionError)
    by (unfold encode; by rewrite decide_False).
  split; [exact Henc|].
  assert (Hagree : forall n,
            emit files before files !! png_path_of n
            = files !! png_path_of n).
  { intros n. apply emit_lookup_other. intros item _.
    apply out_path_ne_png_path. }
  eexists. split.
  { unfold main. rewrite Hsplit, convert_loop_app.
    rewrite (convert_loop_ok files before Hok (mkState files [] 0))
      by reflexivity.
    cbn [convert_loop fs stdout converted print].
    rewrite Hagree, Hsome. unfold png_to_rgb565a8.
    rewrite Hagree, Hsome, Henc. reflexivity. }
  cbn [stdout converted fs]. do 3 (split; [reflexivity|]).
  intros name' cp' Hin. apply emit_lookup_other. intros item Hitem Heq.
  apply out_path_of_inj in Heq.
  pose proof NoDup_EMOJI_MAP_codes as Hnd. rewrite Hsplit, map_app in Hnd.
  apply NoDup_app in Hnd. destruct Hnd as (_ & Hdisj & _).
  apply (Hdisj item.2).
  - apply list_elem_of_In, in_map, Hitem.
  - rewrite Heq. apply list_elem_of_In.
    exact (in_map snd _ _ Hin).
Qed.

Lemma wrong_size_stops_the_run_witness :
  encode (new (16, 16) (255, 0, 0, 255)%Z) = Raise AssertionError
  /\ exists st,
       main wrong_size = (st, Some AssertionError)
       /\ stdout st = report wrong_size [] ++ [MsgConverting "neutral" "1f636"]
       /\ converted st = length (List.filter (present wrong_size) [])
       /\ fs st = emit wrong_size [] wrong_size
       /\ forall name' cp',
            In (name', cp') EMOJI_MAP ->
            fs st !! out_path_of cp' = wrong_size !! out_path_of cp'.
Proof.
  apply (wrong_size_stops_the_run wrong_size [] (List.tl EMOJI_MAP)
           "neutral" "1f636" (new (16, 16) (255, 0, 0, 255)%Z)).
  - reflexivity.
  - reflexivity.
  - vm_compute. reflexivity.
  - vm_compute. discriminate.
Defined.

(** C2, as stated, fails: in a directory whose first input is a 16x16 image
    and whose second input is a valid 32x32 image, the run ends with the
    assertion error; the only line printed announces the first item, and
    the second item, although present and valid, gets no output. *)
Lemma wrong_size_aborts_the_batch_counterexample :
  snd (main wrong_size) = Some AssertionError
  /\ stdout (fst (main wrong_size)) = [MsgConverting "neutral" "1f636"]
  /\ present wrong_size ("happy", "1f642") = true
  /\ input_okb wrong_size ("happy", "1f642") = true
  /\ fs (fst (main wrong_size)) !! out_path_of "1f642" = None.
Proof. vm_compute. repeat split; reflexivity. Qed.

End Driver.

(** ** The quantizer *)

Section Quantizer.
Import PIL Generator.

Variable paste : Image RGBA -> Image RGBA -> Image Z -> Image RGBA.
Variable convert_L : Image RGBA -> Image Z.
Variable autocontrast : Image Z -> nat -> Image Z.
Variable resize : Image Z -> nat * nat -> resample -> Image Z.

(** [Image.resize] returns an image of the size asked for. *)
Hypothesis size_resize : forall img sz f, size (resize img sz f) = sz.

(** What Pillow's steps do to an image of one level: pasting an image
    through a mask that is 255 everywhere gives that image; the grey level
    of an opaque grey pixel is its channel value; the contrast stretch
    leaves an image of one level as it is; resampling an image of one
    level gives that level at the new size. *)
Hypothesis paste_opaque : forall sz bg c,
  paste (new sz bg) (new sz c) (new sz 255%Z) = new sz c.
Hypothesis convert_grey : forall sz v,
  (0 <= v <= 255)%Z -> convert_L (new sz (v, v, v, 255%Z)) = new sz v.
Hypothesis autocontrast_flat : forall sz v cutoff,
  autocontrast (new sz v) cutoff = new sz v.
Hypothesis resize_flat : forall sz sz' v f,
  0 < sz.1 -> 0 < sz.2 -> resize (new sz v) sz' f = new sz' v.

Lemma threshold_cases (x : Z) :
  ((180 < x)%Z /\ threshold x = 255%Z) \/ ((x <= 180)%Z /\ threshold x = 0%Z).
Proof. unfold threshold. destruct (Z.ltb_spec 180 x); [left | right]; done. Qed.

Lemma luminance_flat (w h : nat) (v : Z) :
  0 < w -> 0 < h -> (0 <= v <= 255)%Z ->
  luminance paste convert_L autocontrast resize
            (new (w, h) (v, v, v, 255%Z))
  = new (32, 32) v.
Proof.
  intros Hw Hh Hv. unfold luminance. cbv zeta.
  change (paste _ _ _)
    with (paste (new (w, h) (255, 255, 255, 255)%Z)
                (new (w, h) (v, v, v, 255%Z)) (new (w, h) 255%Z)).
  rewrite paste_opaque, convert_grey by exact Hv.
  rewrite autocontrast_flat, resize_flat by assumption.
  rewrite autocontrast_flat. apply resize_flat; cbn; lia.
Qed.

(** C1, as the code has it: the bitmap is 32x32 and each of its pixels is
    255, that is white, exactly when the luminance at that pixel after the
    compositing, contrast and resampling steps is strictly greater than 180,
    and 0, that is black, otherwise. An opaque input of one grey level
    everywhere, which those steps leave at that level, gives an all-white
    bitmap when the level is above 180 and an all-black bitmap when it is
    at or below 180. *)
Theorem threshold_keeps_bright_pixels_white (img : Image RGBA) :
  let lum := luminance paste convert_L autocontrast resize img in
  let out := monochrome paste convert_L autocontrast resize img in
  size out = (32, 32)
  /\ (forall x y, x < 32 -> y < 32 ->
        ((180 < getpixel lum (x, y))%Z ->
           getpixel out (x, y) = 255%Z
           /\ is_white (getpixel out (x, y)) = true
           /\ is_black (getpixel out (x, y)) = false)
        /\ ((getpixel lum (x, y) <= 180)%Z ->
              getpixel out (x, y) = 0%Z
              /\ is_black (getpixel out (x, y)) = true
              /\ is_white (getpixel out (x, y)) = false))
  /\ (forall (w h : nat) (v : Z),
        0 < w -> 0 < h -> (0 <= v <= 255)%Z ->
        img = new (w, h) (v, v, v, 255%Z) ->
        ((180 < v)%Z ->
           forall x y, x < 32 -> y < 32 ->
             is_white (getpixel out (x, y)) = true)
        /\ ((v <= 180)%Z ->
              forall x y, x < 32 -> y < 32 ->
                is_black (getpixel out (x, y)) = true)).
Proof.
  intros lum out.
  assert (Hpix : forall x y,
            getpixel out (x, y) = threshold (getpixel lum (x, y)))
    by reflexivity.
  split; [apply size_resize|]. split.
  { intros x y _ _. rewrite Hpix.
    destruct (threshold_cases (getpixel lum (x, y))) as [[Hb ->] | [Hd ->]].
    - split; [intros _; by repeat split | intros ?; lia].
    - split; [intros ?; lia | intros _; by repeat split]. }
  intros w h v Hw Hh Hv Himg.
  assert (Hlum : forall x y, getpixel lum (x, y) = v).
  { intros x y. subst lum. rewrite Himg, luminance_flat by assumption.
    reflexivity. }
  split; intros Hcmp x y _ _; rewrite Hpix, Hlum;
    destruct (threshold_cases v) as [[Hb ->] | [Hd ->]];
    first [reflexivity | lia].
Qed.

End Quantizer.

Section QuantizerExamples.
Import PIL Generator.

Lemma threshold_keeps_bright_pixels_white_witness :
  size (Sample.monochrome Sample.bright) = (32, 32)
  /\ (forall x y, x < 32 -> y < 32 ->
        is_white (getpixel (Sample.monochrome Sample.bright) (x, y)) = true).
Proof.
  pose proof (threshold_keeps_bright_pixels_white
                Sample.paste Sample.convert_L Sample.autocontrast
                Sample.resize
                (fun img sz f => eq_refl) (fun sz bg c => eq_refl)
                (fun sz v Hv => eq_refl) (fun sz v cutoff => eq_refl)
                (fun sz sz' v f Hw Hh => eq_refl) Sample.bright)
    as (Hsize & _ & Hflat).
  split; [exact Hsize|].
  apply (Hflat 256 256 200%Z); [lia | lia | lia | reflexivity | lia].
Defined.

(** C1, as stated, fails, with a contrast stretch as Pillow computes it:
    every pixel of the input is brighter than 180, grey 190 on the left
    half and grey 250 on the right half. The stretch takes 190 to 0 and 250
    to 255, so that the luminance at the pixel (31, 0) is 255, above the
    cutoff, and the pixel is white, not black; the pixel (0, 0) is black.
    The bitmap of an input brighter than 180 everywhere is neither all
    black nor all white. *)
Lemma bright_pixel_is_not_black_counterexample :
  Stretch.brighter_than_180 Stretch.two_tone = true
  /\ getpixel (Stretch.luminance Stretch.two_tone) (31, 0) = 255%Z
  /\ is_black (getpixel (Stretch.monochrome Stretch.two_tone) (31, 0)) = false
  /\ is_white (getpixel (Stretch.monochrome Stretch.two_tone) (31, 0)) = true
  /\ getpixel (Stretch.luminance Stretch.two_tone) (0, 0) = 0%Z
  /\ is_black (getpixel (Stretch.monochrome Stretch.two_tone) (0, 0)) = true.
Proof. vm_compute. repeat split; reflexivity. Qed.

(** A dark grey input comes out black, a bright grey one white. *)
Example dark_input_is_black_bright_input_is_white :
  is_black (getpixel (Sample.monochrome Sample.dark) (3, 4)) = true
  /\ is_white (getpixel (Sample.monochrome Sample.bright) (3, 4)) = true.
Proof. split; reflexivity. Qed.

End QuantizerExamples.

(** ** Re-running the generation pipeline *)

Section Paths.
Import Generator.

Lemma raw_path_of_inj a b : raw_path_of a = raw_path_of b -> a = b.
Proof. cbn. intros H. simplify_eq. by eapply string_app_inv_tail. Qed.

Lemma final_path_of_inj a b : final_path_of a = final_path_of b -> a = b.
Proof. cbn. intros H. simplify_eq. by eapply string_app_inv_tail. Qed.

Lemma final_ne_raw a b : final_path_of a <> raw_path_of b.
Proof. cbn. discriminate. Qed.

Lemma preview_ne_raw x b : path_join PREVIEW_DIR x <> raw_path_of b.
Proof. cbn. discriminate. Qed.

Lemma preview_ne_final x b : path_join PREVIEW_DIR x <> final_path_of b.
Proof. cbn. discriminate. Qed.

Lemma html_ne_raw b : HTML_PATH <> raw_path_of b.
Proof. cbn. discriminate. Qed.

Lemma html_ne_final b : HTML_PATH <> final_path_of b.
Proof. cbn. discriminate. Qed.



(** [Path.name] of a path whose last component has no slash. *)
Lemma has_slash_app a b : has_slash (a +:+ b) = has_slash a || has_slash b.
Proof.
  induction a as [|c a IH]; [reflexivity|].
  change (String c a +:+ b) with (String c (a +:+ b)).
  cbn [has_slash]. by rewrite IH, orb_assoc.
Qed.

Lemma name_no_slash s : has_slash s = false -> name s = s.
Proof. destruct s as [|c s]; [reflexivity|]. cbn [name]. by intros ->. Qed.

Lemma name_after_dir dir s :
  has_slash s = false -> name (dir +:+ String "/"%char s) = s.
Proof.
  intros Hs. induction dir as [|c dir IH].
  - change ("" +:+ String "/"%char s) with (String "/"%char s).
    cbn [name has_slash Ascii.eqb Bool.eqb orb]. by apply name_no_slash.
  - change (String c dir +:+ String "/"%char s)
      with (String c (dir +:+ String "/"%char s)).
    cbn [name]. cbn [has_slash]. rewrite has_slash_app.
    cbn [has_slash]. rewrite !orb_true_r. exact IH.
Qed.

Lemma name_final_path n :
  has_slash n = false -> name (final_path_of n) = n +:+ ".png".
Proof.
  intros Hn.
  change (final_path_of n) with (FINAL_DIR +:+ String "/"%char (n +:+ ".png")).
  apply name_after_dir. rewrite has_slash_app, Hn. reflexivity.
Qed.

End Paths.

Section Changes.
Import Generator Rerun.

Variable keep : string -> Prop.
Variable ok : event -> Prop.

Lemma changes_refl w : changes keep ok w w.
Proof.
  split; [|done]. exists []. split; [by rewrite app_nil_r | constructor].
Qed.

Lemma changes_trans w1 w2 w3 :
  changes keep ok w1 w2 -> changes keep ok w2 w3 -> changes keep ok w1 w3.
Proof.
  intros [(e1 & Ht1 & Hf1) Hk1] [(e2 & Ht2 & Hf2) Hk2]. split.
  - exists (e1 ++ e2). split; [by rewrite Ht2, Ht1, app_assoc|].
    by apply Forall_app.
  - intros q Hq. by rewrite Hk2, Hk1.
Qed.

Lemma changes_event e fs' w :
  ok e -> (forall path, keep path -> fs' !! path = fs w !! path) ->
  changes keep ok w (mkWorld fs' (trace w ++ [e])).
Proof.
  intros He Hfs. split; [|exact Hfs]. exists [e]. split; [reflexivity|].
  by repeat constructor.
Qed.

Lemma changes_print m w0 w :
  ok (Print m) -> changes keep ok w0 w -> changes keep ok w0 (print m w).
Proof.
  intros Hm H. eapply changes_trans; [exact H|]. by apply changes_event.
Qed.


Lemma changes_write path content w0 w :
  ok (Write path content) -> (forall q, keep q -> q <> path) ->
  changes keep ok w0 w -> changes keep ok w0 (write path content w).
Proof.
  intros Hm Hne H. eapply changes_trans; [exact H|].
  apply changes_event; [exact Hm|].
  intros q Hq. apply lookup_insert_ne. intros ->. by apply (Hne q).
Qed.

Lemma changes_fold {A : Type} (step : A -> world -> world) (items : list A) :
  (forall item w, In item items -> changes keep ok w (step item w)) ->
  forall w, changes keep ok w (fold_left (fun w item => step item w) items w).
Proof.
  induction items as [|item rest IH]; intros Hstep w.
  - apply changes_refl.
  - cbn [fold_left]. eapply changes_trans; [apply Hstep; by left|].
    apply IH. intros; apply Hstep; by right.
Qed.

Lemma changes_In e w w' : changes keep ok w w' -> In e (trace w) -> In e (trace w').
Proof. intros [(evs & -> & _) _] H. apply in_or_app. by left. Qed.

Hypothesis ok_print : forall m, ok (Print m).



End Changes.

Section RerunPipeline.
Import PIL Generator Rerun.

Variable generate_content : Request -> option Response.
Variable open_rgba : bytes -> option (Image RGBA).
Variable paste : Image RGBA -> Image RGBA -> Image Z -> Image RGBA.
Variable convert_L : Image RGBA -> Image Z.
Variable autocontrast : Image Z -> nat -> Image Z.
Variable resize : Image Z -> nat * nat -> resample -> Image Z.
Variable save_png : Image Z -> bytes.
Variable render_html : list (string * string * string * bool * bool) -> bytes.

Abbreviation mono := (monochrome paste convert_L autocontrast resize).
Abbreviation process :=
  (process_to_monochrome_32 open_rgba paste convert_L autocontrast resize
                            save_png).
Abbreviation step :=
  (process_step open_rgba paste convert_L autocontrast resize save_png).
Abbreviation process_loop :=
  (process_all open_rgba paste convert_L autocontrast resize save_png).
Abbreviation before := (before_processing generate_content).
Abbreviation run :=
  (main generate_content open_rgba paste convert_L autocontrast resize
        save_png render_html).

(** *** The loops as folds *)


Lemma process_all_world items w k :
  (process_loop items w k).1 = fold_left (fun w item => step item w) items w.
Proof.
  revert w k. induction items as [|[[n e] d] rest IH]; intros w k.
  - reflexivity.
  - cbn [process_all fold_left]. unfold process_step at 2.
    destruct (exists_ (raw_path_of n) w); [|apply IH].
    destruct (process _ _ w); apply IH.
Qed.

Lemma main_phases files :
  run files
  = generate_preview_html render_html
      (print (MsgDone (process_loop EMOTIONS (before EMOTIONS files) 0).2
                      (length EMOTIONS))
             (process_loop EMOTIONS (before EMOTIONS files) 0).1).
Proof.
  unfold main, before_processing. generalize EMOTIONS. intros items.
  destruct (load_reference_image _) as [w1 ref].
  destruct (select_todo items w1) as [[w2 todo] sk].
  destruct (match todo with [] => _ | _ :: _ => _ end) as [[w3 g] f].
  destruct (process_loop items _ 0) as [w4 processed]. reflexivity.
Qed.

(** *** What each phase may change *)

Section Footprint.

Variable keep : string -> Prop.
Variable ok : event -> Prop.
Hypothesis ok_print : forall m, ok (Print m).


Lemma process_changes n w w' :
  (forall c, ok (Write (final_path_of n) c)) ->
  (forall x c, ok (Write (path_join PREVIEW_DIR x) c)) ->
  (forall q, keep q -> q <> final_path_of n) ->
  (forall q x, keep q -> q <> path_join PREVIEW_DIR x) ->
  process (raw_path_of n) (final_path_of n) w = Ok w' ->
  changes keep ok w w'.
Proof.
  intros Hf Hp Hkf Hkp. unfold process_to_monochrome_32.
  destruct (fs w !! raw_path_of n) as [raw|]; [|discriminate].
  destruct (open_rgba raw) as [img|]; [|discriminate].
  intros [= <-].
  apply changes_write; [apply Hp | intros q Hq; by apply Hkp|].
  apply changes_write; [apply Hf | apply Hkf | apply changes_refl].
Qed.

Lemma process_step_changes item w :
  (forall c, ok (Write (final_path_of (name_of item)) c)) ->
  (forall x c, ok (Write (path_join PREVIEW_DIR x) c)) ->
  (forall q, keep q -> q <> final_path_of (name_of item)) ->
  (forall q x, keep q -> q <> path_join PREVIEW_DIR x) ->
  changes keep ok w (step item w).
Proof.
  destruct item as [[n e] d]. unfold name_of. cbn [fst].
  intros Hf Hp Hkf Hkp. unfold process_step.
  destruct (exists_ (raw_path_of n) w).
  - destruct (process _ _ w) as [w'|err] eqn:E.
    + apply changes_print; [apply ok_print|].
      by apply (process_changes n).
    + apply changes_print; [apply ok_print | apply changes_refl].
  - apply changes_print; [apply ok_print | apply changes_refl].
Qed.

Lemma generate_preview_html_changes w0 w :
  (forall c, ok (Write HTML_PATH c)) -> (forall q, keep q -> q <> HTML_PATH) ->
  changes keep ok w0 w ->
  changes keep ok w0 (generate_preview_html render_html w).
Proof.
  intros Hw Hk H. unfold generate_preview_html.
  apply changes_print; [apply ok_print|].
  apply changes_write; [apply Hw | apply Hk | exact H].
Qed.


End Footprint.

(** *** The bitmap of an item whose raw image exists *)

Lemma step_same n e d raw w :
  fs w !! raw_path_of n = Some raw ->
  match open_rgba raw with
  | Some img =>
      fs (step (n, e, d) w) !! final_path_of n = Some (save_png (mono img))
      /\ In (Write (final_path_of n) (save_png (mono img)))
            (trace (step (n, e, d) w))
  | None => fs (step (n, e, d) w) !! final_path_of n = fs w !! final_path_of n
  end.
Proof.
  intros Hraw. unfold process_step, exists_.
  rewrite bool_decide_eq_true_2 by (by eexists).
  unfold process_to_monochrome_32. rewrite Hraw.
  destruct (open_rgba raw) as [img|]; [|reflexivity].
  cbn [print write fs trace]. split.
  - rewrite lookup_insert_ne by apply preview_ne_final.
    apply lookup_insert_eq.
  - apply in_or_app; left. apply in_or_app; left. apply in_or_app; right.
    by left.
Qed.

Lemma step_other n item w :
  name_of item <> n ->
  changes (fun q => q = raw_path_of n \/ q = final_path_of n)
          (fun _ => True) w (step item w).
Proof.
  intros Hne. apply process_step_changes; try done.
  - intros q [-> | ->]; [apply not_eq_sym, final_ne_raw|].
    intros Heq%final_path_of_inj. by apply Hne.
  - intros q x [-> | ->]; apply not_eq_sym;
      [apply preview_ne_raw | apply preview_ne_final].
Qed.

Lemma fold_step_other n items w :
  ~ In n (map name_of items) ->
  changes (fun q => q = raw_path_of n \/ q = final_path_of n)
          (fun _ => True) w (fold_left (fun w item => step item w) items w).
Proof.
  intros Hnotin. apply changes_fold. intros item w' Hin.
  apply step_other. intros <-. apply Hnotin. by apply in_map.
Qed.

Lemma fold_step_final n raw items :
  NoDup (map name_of items) -> In n (map name_of items) ->
  forall w, fs w !! raw_path_of n = Some raw ->
  match open_rgba raw with
  | Some img =>
      fs (fold_left (fun w item => step item w) items w) !! final_path_of n
      = Some (save_png (mono img))
      /\ In (Write (final_path_of n) (save_png (mono img)))
            (trace (fold_left (fun w item => step item w) items w))
  | None =>
      fs (fold_left (fun w item => step item w) items w) !! final_path_of n
      = fs w !! final_path_of n
  end.
Proof.
  induction items as [|[[m e] d] rest IH]; intros Hnd Hin w Hraw;
    [destruct Hin|].
  cbn [map] in Hnd, Hin. apply NoDup_cons in Hnd. destruct Hnd as [Hm Hnd].
  change (name_of (m, e, d)) with m in Hm, Hin. cbn [fold_left].
  destruct (decide (m = n)) as [-> | Hne].
  - assert (Hrest : ~ In n (map name_of rest))
      by (intros H; by apply Hm, list_elem_of_In).
    pose proof (fold_step_other n rest (step (n, e, d) w) Hrest) as Hc.
    pose proof (step_same n e d raw w Hraw) as Hs.
    destruct (open_rgba raw) as [img|].
    + destruct Hs as [Hfs Htr]. split.
      * rewrite (proj2 Hc) by (by right). exact Hfs.
      * by apply (changes_In _ _ _ _ _ Hc).
    + rewrite (proj2 Hc) by (by right). exact Hs.
  - destruct Hin as [-> | Hin]; [done|].
    pose proof (step_other n (m, e, d) w Hne) as Hc.
    specialize (IH Hnd Hin (step (m, e, d) w)).
    rewrite (proj2 Hc) in IH by (by left). specialize (IH Hraw).
    destruct (open_rgba raw) as [img|]; [exact IH|].
    rewrite IH. apply (proj2 Hc). by right.
Qed.

(** *** The preview of an item whose raw image exists *)








Lemma NoDup_EMOTIONS_names : NoDup (map name_of EMOTIONS).
Proof. apply (bool_decide_unpack _). vm_compute. exact I. Qed.


End RerunPipeline.

Section RerunExamples.
Import PIL Generator Rerun.



End RerunExamples.

(** ** Further properties of the encoder *)

Section EncoderMore.
Import PIL Codec Layout.

Lemma Forall_flat_map_seq {A : Type} (P : A -> Prop) (f : nat -> list A)
    (n s : nat) :
  (forall i, s <= i < s + n -> Forall P (f i)) ->
  Forall P (flat_map f (seq s n)).
Proof.
  revert s; induction n as [|n IH]; intros s H; [constructor|].
  cbn [seq flat_map]. apply Forall_app. split; [apply H; lia|].
  apply IH. intros i Hi. apply H. lia.
Qed.

Lemma land_255_byte c : is_byte (Z.land c 255) = true.
Proof.
  rewrite land_255_mod. unfold is_byte.
  pose proof (Z.mod_pos_bound c 256 ltac:(lia)).
  apply andb_true_intro. split; [apply Z.leb_le | apply Z.ltb_lt]; lia.
Qed.

Lemma color_pair_bytes p : Forall (fun v => is_byte v = true) (color_pair p).
Proof.
  destruct p as [[[r g] b] a]. unfold color_pair.
  repeat constructor; apply land_255_byte.
Qed.

Lemma color_plane_bytes img :
  Forall (fun v => is_byte v = true) (color_plane img).
Proof.
  unfold color_plane. apply Forall_flat_map_seq. intros y _.
  apply Forall_flat_map_seq. intros x _. apply color_pair_bytes.
Qed.

(** The colour bytes are masked to 8 bits, so they are bytes whatever the
    channel values are; the alpha bytes are the alpha values as they come.
    For an image with 8-bit alpha the whole blob is made of bytes, so no
    [bytearray.append] can fail. *)
Theorem encoded_blob_is_made_of_bytes (img : Image RGBA) :
  size img = (32, 32) ->
  exists blob,
    encode img = Ok blob
    /\ Forall (fun v => is_byte v = true) (take 2048 blob)
    /\ ((forall x y, x < 32 -> y < 32 ->
           is_byte (alpha_of (getpixel img (x, y))) = true) ->
        Forall (fun v => is_byte v = true) blob).
Proof.
  intros Hsz. exists (color_plane img ++ alpha_plane img).
  split; [by apply encode_planes|].
  rewrite (take_app_length' _ _ 2048)
    by (symmetry; apply length_color_plane).
  split; [apply color_plane_bytes|]. intros Ha.
  apply Forall_app. split; [apply color_plane_bytes|].
  unfold alpha_plane. apply Forall_flat_map_seq. intros y Hy.
  apply Forall_flat_map_seq. intros x Hx. repeat constructor.
  apply Ha; lia.
Qed.

Lemma encoded_blob_is_made_of_bytes_witness :
  exists blob,
    encode red_image = Ok blob
    /\ Forall (fun v => is_byte v = true) (take 2048 blob)
    /\ ((forall x y, x < 32 -> y < 32 ->
           is_byte (alpha_of (getpixel red_image (x, y))) = true) ->
        Forall (fun v => is_byte v = true) blob).
Proof. apply (encoded_blob_is_made_of_bytes red_image). reflexivity. Defined.

Lemma color_pair_truncate p q :
  truncate p = truncate q -> color_pair p = color_pair q.
Proof.
  destruct p as [[[r g] b] a], q as [[[r' g'] b'] a']. unfold truncate.
  intros [= Hr Hg Hb _]. unfold color_pair, rgb565_of.
  by rewrite Hr, Hg, Hb.
Qed.

Lemma alpha_of_truncate p q : truncate p = truncate q -> alpha_of p = alpha_of q.
Proof.
  destruct p as [[[r g] b] a], q as [[[r' g'] b'] a']. unfold truncate.
  by intros [= _ _ _ Ha].
Qed.

(** What the encoding loses: two valid images have the same blob exactly
    when every pixel of one has the same alpha and the same top 5, 6 and 5
    bits of red, green and blue as the pixel of the other. *)
Theorem same_blob_iff_same_truncation (img1 img2 : Image RGBA) :
  valid_image img1 -> valid_image img2 ->
  exists blob1 blob2,
    encode img1 = Ok blob1 /\ encode img2 = Ok blob2
    /\ (blob1 = blob2 <->
        forall x y, x < 32 -> y < 32 ->
          truncate (getpixel img1 (x, y)) = truncate (getpixel img2 (x, y))).
Proof.
  intros [Hsz1 Hok1] [Hsz2 Hok2].
  exists (color_plane img1 ++ alpha_plane img1),
         (color_plane img2 ++ alpha_plane img2).
  split; [by apply encode_planes|]. split; [by apply encode_planes|].
  split.
  - intros Heq x y Hx Hy.
    pose proof (blob_lookup img1 x y Hx Hy) as H1.
    pose proof (blob_lookup img2 x y Hx Hy) as H2.
    cbv zeta in H1, H2. rewrite Heq in H1.
    specialize (Hok1 x y Hx Hy). specialize (Hok2 x y Hx Hy).
    destruct (getpixel img1 (x, y)) as [[[r g] b] a].
    destruct (getpixel img2 (x, y)) as [[[r' g'] b'] a'].
    destruct H1 as (Hlo & Hhi & Ha). destruct H2 as (Hlo' & Hhi' & Ha').
    rewrite Hlo in Hlo'. rewrite Hhi in Hhi'. rewrite Ha in Ha'.
    injection Hlo' as Hlo'. injection Hhi' as Hhi'. injection Ha' as ->.
    apply rgba_ok_bytes in Hok1. destruct Hok1 as (Hr & Hg & Hb & _).
    apply rgba_ok_bytes in Hok2. destruct Hok2 as (Hr' & Hg' & Hb' & _).
    pose proof (rgb565_fields r g b Hr Hg Hb) as F. cbv zeta in F.
    pose proof (rgb565_fields r' g' b' Hr' Hg' Hb') as F'. cbv zeta in F'.
    destruct F as (Hc & _ & _ & _ & R & G & B & _).
    destruct F' as (Hc' & _ & _ & _ & R' & G' & B' & _).
    assert (Hcc : rgb565_of r g b = rgb565_of r' g' b')
      by (rewrite <- Hc, <- Hc', Hlo', Hhi'; reflexivity).
    unfold truncate. rewrite <- R, <- G, <- B, <- R', <- G', <- B', Hcc.
    reflexivity.
  - intros H. f_equal.
    + unfold color_plane. apply flat_map_ext_seq. intros y Hy.
      apply flat_map_ext_seq. intros x Hx. apply color_pair_truncate, H; lia.
    + unfold alpha_plane. apply flat_map_ext_seq. intros y Hy.
      apply flat_map_ext_seq. intros x Hx. f_equal.
      apply alpha_of_truncate, H; lia.
Qed.

Lemma same_blob_iff_same_truncation_witness :
  exists blob1 blob2,
    encode red_image = Ok blob1
    /\ encode (new (32, 32) (250, 3, 7, 255)%Z) = Ok blob2
    /\ (blob1 = blob2 <->
        forall x y, x < 32 -> y < 32 ->
          truncate (getpixel red_image (x, y))
          = truncate (getpixel (new (32, 32) (250, 3, 7, 255)%Z) (x, y))).
Proof.
  apply (same_blob_iff_same_truncation red_image
           (new (32, 32) (250, 3, 7, 255)%Z));
    (split; [reflexivity | intros; reflexivity]).
Defined.

Lemma chunk_of_flat_map {A : Type} (f : nat -> list A) (k n i : nat)
    (rest : list A) :
  (forall i, length (f i) = k) -> i < n ->
  take k (drop (i * k) (flat_map f (seq 0 n) ++ rest)) = f i.
Proof.
  intros Hk Hi. apply list_eq. intros j. destruct (decide (j < k)) as [Hj|Hj].
  - rewrite lookup_take_lt by exact Hj. rewrite lookup_drop.
    rewrite lookup_app_l
      by (rewrite (length_flat_map_const _ k), length_seq by exact Hk; nia).
    by rewrite (lookup_flat_map_seq f k Hk) by lia.
  - rewrite lookup_take_ge by lia. symmetry. apply lookup_ge_None_2.
    rewrite Hk. lia.
Qed.

Lemma flat_map_singleton {A B : Type} (f : A -> B) (l : list A) :
  flat_map (fun x => [f x]) l = map f l.
Proof. induction l as [|a l IH]; [reflexivity|]. cbn. by rewrite IH. Qed.

(** Encoding and then emitting: line 22 + y of the C text (counting from 0)
    prints the colour bytes of row y of the image, pixel after pixel, and
    line 54 + y prints the alpha values of row y. *)
Theorem emitted_rows_are_image_rows (emotion_name unicode_cp : string)
    (img : Image RGBA) :
  size img = (32, 32) ->
  exists blob,
    encode img = Ok blob
    /\ forall y, y < 32 ->
         generate_c_lines emotion_name unicode_cp blob !! (22 + y)
         = Some (hex_line (flat_map (fun x => color_pair (getpixel img (x, y)))
                                    (seq 0 32)))
         /\ generate_c_lines emotion_name unicode_cp blob !! (54 + y)
            = Some (hex_line (map (fun x => alpha_of (getpixel img (x, y)))
                                  (seq 0 32))).
Proof.
  intros Hsz. exists (color_plane img ++ alpha_plane img).
  split; [by apply encode_planes|]. intros y Hy.
  unfold generate_c_lines.
  assert (Hp : length (prologue unicode_cp) = 22) by reflexivity.
  assert (Hc : length (map hex_line
                         (color_rows (color_plane img ++ alpha_plane img)))
               = 32) by (by rewrite length_map, color_rows_chunks,
                           length_map, length_seq).
  assert (Ha : length (map hex_line
                         (alpha_rows (color_plane img ++ alpha_plane img)))
               = 32) by (by rewrite length_map, alpha_rows_chunks,
                           length_map, length_seq).
  split.
  - rewrite lookup_app_r by lia. rewrite Hp.
    replace (22 + y - 22) with y by lia.
    rewrite lookup_app_l by lia.
    rewrite lookup_map, color_rows_chunks, lookup_chunks by exact Hy.
    cbn [fmap option_fmap option_map]. do 2 f_equal.
    unfold color_plane.
    apply (chunk_of_flat_map
             (fun y => flat_map (fun x => color_pair (getpixel img (x, y)))
                                (seq 0 32)) 64 32); [|exact Hy].
    intros; apply length_color_row.
  - rewrite lookup_app_r by lia. rewrite Hp.
    rewrite lookup_app_r by lia. rewrite Hc.
    replace (54 + y - 22 - 32) with y by lia.
    rewrite lookup_app_l by lia.
    rewrite lookup_map, alpha_rows_chunks, lookup_chunks by exact Hy.
    cbn [fmap option_fmap option_map]. do 2 f_equal.
    rewrite (drop_app_length' _ _ 2048)
      by (symmetry; apply length_color_plane).
    rewrite <- flat_map_singleton. unfold alpha_plane.
    rewrite <- (app_nil_r (flat_map _ (seq 0 32))) at 1.
    apply (chunk_of_flat_map
             (fun y => flat_map (fun x => [alpha_of (getpixel img (x, y))])
                                (seq 0 32)) 32 32); [|exact Hy].
    intros; apply length_alpha_row.
Qed.

Lemma emitted_rows_are_image_rows_witness :
  exists blob,
    encode red_image = Ok blob
    /\ forall y, y < 32 ->
         generate_c_lines "neutral" "1f636" blob !! (22 + y)
         = Some (hex_line (flat_map
                   (fun x => color_pair (getpixel red_image (x, y)))
                   (seq 0 32)))
         /\ generate_c_lines "neutral" "1f636" blob !! (54 + y)
            = Some (hex_line (map (fun x => alpha_of (getpixel red_image (x, y)))
                                  (seq 0 32))).
Proof.
  apply (emitted_rows_are_image_rows "neutral" "1f636" red_image). reflexivity.
Defined.

End EncoderMore.

(** ** Further properties of the emitter *)

Section EmitterMore.
Import PIL Codec Layout More.

(** Whatever the length of the data, the text has 100 lines, of which the
    lines 22 to 53 print the 32 slices of 64 bytes cut from the first 2048
    bytes and the lines 54 to 85 the 32 slices of 32 bytes cut from the next
    1024: together the first 3072 bytes of the data at most. Shorter data
    give shorter or empty rows, longer data lose their end: apart from the
    line that states the length of the data as given, the text depends on
    the first 3072 bytes only. *)
Theorem emitter_prints_at_most_3072_bytes (emotion_name unicode_cp : string)
    (data : bytes) :
  length (generate_c_lines emotion_name unicode_cp data) = 100
  /\ (forall y, y < 32 ->
        generate_c_lines emotion_name unicode_cp data !! (22 + y)
        = Some (hex_line (take 64 (drop (64 * y) data)))
        /\ generate_c_lines emotion_name unicode_cp data !! (54 + y)
           = Some (hex_line (take 32 (drop (2048 + 32 * y) data))))
  /\ concat (map (fun y => take 64 (drop (64 * y) data)) (seq 0 32))
       ++ concat (map (fun y => take 32 (drop (2048 + 32 * y) data))
                      (seq 0 32))
     = take 3072 data
  /\ generate_c_lines emotion_name unicode_cp data !! 96
     = Some ("  .data_size = " +:+ pretty (length data) +:+ ",")
  /\ (forall data' : bytes,
        take 3072 data' = take 3072 data ->
        take 96 (generate_c_lines emotion_name unicode_cp data')
        = take 96 (generate_c_lines emotion_name unicode_cp data)
        /\ drop 97 (generate_c_lines emotion_name unicode_cp data')
           = drop 97 (generate_c_lines emotion_name unicode_cp data)).
Proof.
  split; [apply length_generate_c_lines|].
  split; [intros y Hy; split;
          [by apply lines_color_row | by apply lines_alpha_row]|].
  split; [apply rows_concat|].
  split.
  { destruct (lines_split emotion_name unicode_cp data) as [-> Hlen].
    rewrite lookup_app_r by lia. rewrite Hlen. reflexivity. }
  intros data' Heq.
  destruct (lines_split emotion_name unicode_cp data) as [-> Hlen].
  destruct (lines_split emotion_name unicode_cp data') as [-> Hlen'].
  rewrite <- (color_rows_take data), <- (alpha_rows_take data).
  rewrite <- (color_rows_take data'), <- (alpha_rows_take data'), Heq.
  rewrite <- (color_rows_take data), <- (alpha_rows_take data) in Hlen.
  split.
  - by rewrite !(take_app_add' _ _ 86 10) by (by rewrite Hlen).
  - by rewrite !(drop_app_add' _ _ 86 11) by (by rewrite Hlen).
Qed.

Lemma hex_digits_read_back :
  forallb (fun b => (16 * hex_value (hex_digit (b / 16))
                     + hex_value (hex_digit (b mod 16)) =? b)%Z)
          (zrange 256) = true.
Proof. vm_compute. reflexivity. Qed.

Lemma hex_read_back b :
  is_byte b = true ->
  (16 * hex_value (hex_digit (b / 16)) + hex_value (hex_digit (b mod 16)))%Z
  = b.
Proof.
  intros Hb. apply is_byte_range in Hb.
  pose proof hex_digits_read_back as H. rewrite forallb_forall in H.
  apply Z.eqb_eq, H, in_zrange. lia.
Qed.

Lemma read_items_hex02 b rest :
  read_items (hex02 b +:+ "," +:+ rest)
  = (16 * hex_value (hex_digit (b / 16))
     + hex_value (hex_digit (b mod 16)))%Z :: read_items rest.
Proof. reflexivity. Qed.

Lemma read_items_row (c : bytes) :
  Forall (fun v => is_byte v = true) c -> c <> [] ->
  read_items (String.concat "," (map hex02 c) +:+ ",") = c.
Proof.
  induction c as [|b [|b' c'] IH]; intros Hc Hne; [done| |].
  - apply Forall_cons in Hc. destruct Hc as [Hb _].
    change (read_items (hex02 b +:+ "," +:+ "") = [b]).
    rewrite read_items_hex02, hex_read_back by exact Hb. reflexivity.
  - apply Forall_cons in Hc. destruct Hc as [Hb Hc].
    change (read_items
              (hex02 b +:+ "," +:+
                 (String.concat "," (map hex02 (b' :: c')) +:+ ","))
            = b :: b' :: c').
    rewrite read_items_hex02, hex_read_back by exact Hb.
    f_equal. by apply IH.
Qed.

Lemma read_line_hex_line (c : bytes) :
  Forall (fun v => is_byte v = true) c -> read_line (hex_line c) = c.
Proof.
  intros Hc. destruct c as [|b c']; [reflexivity|].
  change (read_line (hex_line (b :: c')))
    with (read_items (String.concat "," (map hex02 (b :: c')) +:+ ",")).
  by apply read_items_row.
Qed.

(** The text of a row determines its bytes: two different rows of bytes are
    never printed as the same line. *)
Theorem hex_line_is_injective (c c' : bytes) :
  Forall (fun v => is_byte v = true) c ->
  Forall (fun v => is_byte v = true) c' ->
  hex_line c = hex_line c' -> c = c'.
Proof.
  intros Hc Hc' Heq.
  rewrite <- (read_line_hex_line c Hc), <- (read_line_hex_line c' Hc').
  by rewrite Heq.
Qed.

Lemma hex_line_is_injective_witness :
  hex_line [0; 248]%Z = "    0x00,0xf8," /\ [0; 248]%Z = [0; 248]%Z.
Proof.
  split; [reflexivity|].
  apply (hex_line_is_injective [0; 248]%Z [0; 248]%Z);
    [repeat constructor | repeat constructor | reflexivity].
Defined.

End EmitterMore.

(** ** The emitted text, read back *)

Section EmitterText.
Import PIL Codec Layout More.

Lemma string_app_assoc (a b c : string) : (a +:+ b) +:+ c = a +:+ (b +:+ c).
Proof.
  induction a as [|x a IH]; [reflexivity|].
  change (String x ((a +:+ b) +:+ c) = String x (a +:+ (b +:+ c))).
  by rewrite IH.
Qed.

(** *** Lines *)

Lemma has_lf_app a b : has_lf (a +:+ b) = has_lf a || has_lf b.
Proof.
  induction a as [|x a IH]; [reflexivity|].
  change (String x a +:+ b) with (String x (a +:+ b)).
  cbn [has_lf]. by rewrite IH, orb_assoc.
Qed.

Lemma is_lf_upper_ascii c : is_lf (upper_ascii c) = is_lf c.
Proof. destruct c as [[] [] [] [] [] [] [] []]; reflexivity. Qed.

Lemma has_lf_upper s : has_lf (upper s) = has_lf s.
Proof.
  induction s as [|c s IH]; [reflexivity|].
  cbn [upper has_lf]. by rewrite is_lf_upper_ascii, IH.
Qed.

Lemma is_lf_hex_digit n : is_lf (hex_digit n) = false.
Proof.
  unfold hex_digit. generalize (Z.to_nat n). intros k.
  do 16 (destruct k as [|k]; [reflexivity|]). by destruct k.
Qed.

Lemma has_lf_hex02 b : has_lf (hex02 b) = false.
Proof.
  change (hex02 b)
    with (String "0"%char
            (String "x"%char
               (String (hex_digit (b / 16))
                  (String (hex_digit (b mod 16)) EmptyString)))).
  cbn [has_lf]. by rewrite !is_lf_hex_digit.
Qed.

Lemma has_lf_concat sep l :
  has_lf sep = false -> Forall (fun x => has_lf x = false) l ->
  has_lf (String.concat sep l) = false.
Proof.
  intros Hsep. induction l as [|x [|y l] IH]; intros Hl; [reflexivity| |].
  - apply Forall_cons in Hl. by destruct Hl.
  - apply Forall_cons in Hl. destruct Hl as [Hx Hl].
    change (String.concat sep (x :: y :: l))
      with (x +:+ sep +:+ String.concat sep (y :: l)).
    by rewrite !has_lf_app, Hx, Hsep, IH.
Qed.

Lemma has_lf_hex_line c : has_lf (hex_line c) = false.
Proof.
  unfold hex_line. rewrite !has_lf_app, has_lf_concat; [reflexivity..|].
  apply List.Forall_forall. intros x Hx. apply in_map_iff in Hx.
  destruct Hx as (b & <- & _). apply has_lf_hex02.
Qed.

Lemma text_lines_no_lf s : has_lf s = false -> text_lines s = [s].
Proof.
  induction s as [|c s IH]; [reflexivity|]. cbn [has_lf text_lines].
  intros H. apply orb_false_elim in H. destruct H as [Hc Hs].
  by rewrite Hc, IH.
Qed.

Lemma text_lines_app s t :
  has_lf s = false ->
  text_lines (s +:+ newline +:+ t) = s :: text_lines t.
Proof.
  induction s as [|c s IH]; [reflexivity|]. cbn [has_lf].
  intros H. apply orb_false_elim in H. destruct H as [Hc Hs].
  change (String c s +:+ newline +:+ t)
    with (String c (s +:+ newline +:+ t)).
  cbn [text_lines]. by rewrite Hc, IH.
Qed.

Lemma text_lines_concat lines :
  lines <> [] -> Forall (fun l => has_lf l = false) lines ->
  text_lines (String.concat newline lines) = lines.
Proof.
  induction lines as [|x [|y l] IH]; intros Hne Hl; [done| |].
  - apply Forall_cons in Hl. destruct Hl as [Hx _].
    by apply text_lines_no_lf.
  - apply Forall_cons in Hl. destruct Hl as [Hx Hl].
    change (String.concat newline (x :: y :: l))
      with (x +:+ newline +:+ String.concat newline (y :: l)).
    rewrite text_lines_app by exact Hx. f_equal. by apply IH.
Qed.

Lemma lines_have_no_lf emotion_name unicode_cp data :
  length data = 3072 -> has_lf unicode_cp = false ->
  Forall (fun l => has_lf l = false)
         (generate_c_lines emotion_name unicode_cp data).
Proof.
  intros Hlen Hcp. unfold generate_c_lines.
  repeat apply Forall_app_2.
  - unfold prologue, attr_name, var_name.
    repeat apply List.Forall_cons; try apply List.Forall_nil;
      rewrite ?has_lf_app, ?has_lf_upper, ?Hcp; reflexivity.
  - apply List.Forall_forall. intros x Hx. apply in_map_iff in Hx.
    destruct Hx as (c & <- & _). apply has_lf_hex_line.
  - apply List.Forall_forall. intros x Hx. apply in_map_iff in Hx.
    destruct Hx as (c & <- & _). apply has_lf_hex_line.
  - unfold epilogue, var_name. rewrite Hlen, pretty_3072.
    repeat apply List.Forall_cons; try apply List.Forall_nil;
      rewrite ?has_lf_app, ?Hcp; reflexivity.
Qed.

Lemma text_lines_generate_c_file emotion_name unicode_cp data :
  length data = 3072 -> has_lf unicode_cp = false ->
  text_lines (generate_c_file emotion_name unicode_cp data)
  = generate_c_lines emotion_name unicode_cp data.
Proof.
  intros Hlen Hcp. unfold generate_c_file. apply text_lines_concat.
  - intros H. apply (f_equal length) in H.
    rewrite length_generate_c_lines in H. discriminate.
  - by apply lines_have_no_lf.
Qed.

(** *** Rows *)

Lemma hex_digits_parse :
  forallb (fun b => is_hex (hex_digit (b / 16))
                    && is_hex (hex_digit (b mod 16)))
          (zrange 256) = true.
Proof. vm_compute. reflexivity. Qed.

Lemma is_hex_digits b :
  is_byte b = true ->
  is_hex (hex_digit (b / 16)) && is_hex (hex_digit (b mod 16)) = true.
Proof.
  intros Hb. apply is_byte_range in Hb.
  pose proof hex_digits_parse as H. rewrite forallb_forall in H.
  apply (H b), in_zrange. lia.
Qed.

Lemma parse_items_hex02 b rest :
  is_byte b = true ->
  parse_items (hex02 b +:+ "," +:+ rest)
  = match parse_items rest with
    | Some bs => Some (b :: bs)
    | None => None
    end.
Proof.
  intros Hb.
  change (parse_items (hex02 b +:+ "," +:+ rest))
    with (if is_hex (hex_digit (b / 16)) && is_hex (hex_digit (b mod 16))
          then match parse_items rest with
               | Some bs =>
                   Some ((16 * hex_value (hex_digit (b / 16))
                          + hex_value (hex_digit (b mod 16)))%Z :: bs)
               | None => None
               end
          else None).
  by rewrite is_hex_digits, hex_read_back by exact Hb.
Qed.

Lemma parse_items_row (c : bytes) :
  Forall (fun v => is_byte v = true) c -> c <> [] ->
  parse_items (String.concat "," (map hex02 c) +:+ ",") = Some c.
Proof.
  induction c as [|b [|b' c'] IH]; intros Hc Hne; [done| |].
  - apply Forall_cons in Hc. destruct Hc as [Hb _].
    change (parse_items (hex02 b +:+ "," +:+ "") = Some [b]).
    by rewrite parse_items_hex02 by exact Hb.
  - apply Forall_cons in Hc. destruct Hc as [Hb Hc].
    change (parse_items
              (hex02 b +:+ "," +:+
                 (String.concat "," (map hex02 (b' :: c')) +:+ ","))
            = Some (b :: b' :: c')).
    rewrite parse_items_hex02 by exact Hb. by rewrite IH.
Qed.

Lemma parse_row_hex_line (c : bytes) :
  Forall (fun v => is_byte v = true) c -> c <> [] ->
  parse_row (hex_line c) = Some c.
Proof.
  intros Hc Hne.
  change (parse_row (hex_line c))
    with (parse_items (String.concat "," (map hex02 c) +:+ ",")).
  by apply parse_items_row.
Qed.

Lemma parse_rows (rows : list bytes) :
  Forall (fun c => Forall (fun v => is_byte v = true) c /\ c <> []) rows ->
  omap parse_row (map hex_line rows) = rows.
Proof.
  induction rows as [|c rows IH]; intros H; [reflexivity|].
  apply Forall_cons in H. destruct H as [[Hc Hne] H].
  cbn [map omap list_omap]. rewrite parse_row_hex_line by assumption.
  by rewrite IH.
Qed.

Lemma chunk_not_nil {A : Type} (k s : nat) (l : list A) :
  0 < k -> s + k <= length l -> take k (drop s l) <> [].
Proof.
  intros Hk Hl H. apply (f_equal length) in H.
  rewrite length_chunk in H by exact Hl. cbn in H. lia.
Qed.

(** C8: for a blob of 3072 bytes, the text has 100 lines; the array is
    opened on line 20 under its name, and each of the lines 22 to 53 is a
    row of the array that holds exactly the 64 bytes of one colour row,
    each of the lines 54 to 85 a row that holds exactly the 32 bytes of one
    alpha row, in row order, so that the rows read back give the blob; the
    array is closed on line 87, and the record that follows names the
    format RGB565A8, width 32, height 32, stride 64, the length of the blob
    as data size, and the array. *)
Theorem emitter_rows_and_metadata (emotion_name unicode_cp : string)
    (data : bytes) :
  length data = 3072 -> forallb is_byte data = true ->
  has_lf unicode_cp = false ->
  let rows := text_lines (generate_c_file emotion_name unicode_cp data) in
  length rows = 100
  /\ rows !! 20 = Some ("uint8_t emoji_" +:+ unicode_cp +:+ "_32_map[] = {")
  /\ rows !! 21 = Some EmptyString
  /\ (forall y, y < 32 ->
        exists line,
          rows !! (22 + y) = Some line
          /\ parse_row line = Some (take 64 (drop (64 * y) data))
          /\ length (take 64 (drop (64 * y) data)) = 64)
  /\ (forall y, y < 32 ->
        exists line,
          rows !! (54 + y) = Some line
          /\ parse_row line = Some (take 32 (drop (2048 + 32 * y) data))
          /\ length (take 32 (drop (2048 + 32 * y) data)) = 32)
  /\ concat (omap parse_row (take 64 (drop 22 rows))) = data
  /\ drop 86 rows
     = [ ""; "};"; "";
         "const lv_image_dsc_t emoji_" +:+ unicode_cp +:+ "_32 = {";
         "  .header.magic = LV_IMAGE_HEADER_MAGIC,";
         "  .header.cf = LV_COLOR_FORMAT_RGB565A8,";
         "  .header.flags = 0,";
         "  .header.w = 32,";
         "  .header.h = 32,";
         "  .header.stride = 64,";
         "  .data_size = 3072,";
         "  .data = emoji_" +:+ unicode_cp +:+ "_32_map,";
         "};"; "" ].
Proof.
  intros Hlen Hbytes Hcp rows. subst rows.
  rewrite text_lines_generate_c_file by assumption.
  assert (Hall : Forall (fun v => is_byte v = true) data).
  { apply List.Forall_forall. by apply forallb_forall. }
  split; [apply length_generate_c_lines|].
  split.
  { unfold generate_c_lines. rewrite lookup_app_l by (cbn; lia).
    unfold prologue, var_name. cbn [lookup list_lookup].
    by rewrite !string_app_assoc. }
  split.
  { unfold generate_c_lines. by rewrite lookup_app_l by (cbn; lia). }
  split.
  { intros y Hy. eexists. split; [by apply lines_color_row|].
    split; [|apply length_chunk; lia].
    apply parse_row_hex_line; [by apply Forall_take, Forall_drop|].
    apply chunk_not_nil; lia. }
  split.
  { intros y Hy. eexists. split; [by apply lines_alpha_row|].
    split; [|apply length_chunk; lia].
    apply parse_row_hex_line; [by apply Forall_take, Forall_drop|].
    apply chunk_not_nil; lia. }
  split.
  { unfold generate_c_lines.
    rewrite (drop_app_length' _ _ 22) by reflexivity.
    rewrite app_assoc, (take_app_length' _ _ 64)
      by (by rewrite length_app, !length_map, length_color_rows,
               length_alpha_rows).
    rewrite <- map_app, parse_rows.
    - rewrite concat_app, color_rows_chunks, alpha_rows_chunks.
      rewrite (concat_chunks 64 32), (concat_chunks 32 32).
      rewrite (take_ge (drop 2048 data)) by (rewrite length_drop; lia).
      apply take_drop.
    - apply Forall_app_2; apply List.Forall_forall; intros c Hc.
      + rewrite color_rows_chunks in Hc. apply in_map_iff in Hc.
        destruct Hc as (y & <- & Hy). apply in_seq in Hy.
        split; [by apply Forall_take, Forall_drop|].
        apply chunk_not_nil; lia.
      + rewrite alpha_rows_chunks in Hc. apply in_map_iff in Hc.
        destruct Hc as (y & <- & Hy). apply in_seq in Hy.
        split; [by apply Forall_take, Forall_drop, Forall_drop|].
        apply chunk_not_nil; [lia|]. rewrite length_drop. lia. }
  destruct (lines_split emotion_name unicode_cp data) as [-> Hl].
  rewrite (drop_app_length' _ _ 86) by (by rewrite Hl).
  unfold epilogue, var_name. rewrite Hlen, pretty_3072.
  by rewrite !string_app_assoc.
Qed.

Lemma emitter_rows_and_metadata_witness :
  let rows := text_lines (generate_c_file "neutral" "1f636" sample_blob) in
  length rows = 100
  /\ rows !! 20 = Some "uint8_t emoji_1f636_32_map[] = {"
  /\ (exists line,
        rows !! 23 = Some line
        /\ parse_row line = Some (take 64 (drop 64 sample_blob)))
  /\ concat (omap parse_row (take 64 (drop 22 rows))) = sample_blob
  /\ rows !! 96 = Some "  .data_size = 3072,".
Proof.
  intros rows.
  pose proof (emitter_rows_and_metadata "neutral" "1f636" sample_blob
                eq_refl eq_refl eq_refl)
    as (H1 & H2 & _ & H4 & _ & H6 & H7).
  fold rows in H1, H2, H4, H6, H7.
  split; [exact H1|]. split; [exact H2|].
  split.
  { destruct (H4 1) as (line & Hl & Hp & _); [lia|].
    exists line. split; [exact Hl | exact Hp]. }
  split; [exact H6|].
  rewrite <- (take_drop 86 rows), lookup_app_r
    by (rewrite length_take; lia).
  rewrite H7, length_take, H1. reflexivity.
Defined.

End EmitterText.

(** ** Further properties of the codec's driver *)

Section DriverMore.
Import PIL Codec Layout Batch More.

Lemma convert_loop_error files items :
  forall st,
    (forall name, fs st !! png_path_of name = files !! png_path_of name) ->
    (convert_loop items st).2 = first_error files items.
Proof.
  induction items as [|[name cp] rest IH]; intros st Hagree; [reflexivity|].
  cbn [convert_loop first_error fst]. rewrite Hagree.
  destruct (files !! png_path_of name) as [[img|t]|] eqn:E.
  - unfold png_to_rgb565a8. cbn [print fs]. rewrite Hagree, E.
    unfold encode. destruct (decide (size img = (32, 32))); [|reflexivity].
    apply IH. intros n. cbn [write_text print fs].
    rewrite lookup_insert_ne by apply out_path_ne_png_path. apply Hagree.
  - unfold png_to_rgb565a8. cbn [print fs]. by rewrite Hagree, E.
  - apply IH. exact Hagree.
Qed.

Lemma main_error files : (main files).2 = first_error files EMOJI_MAP.
Proof.
  pose proof (convert_loop_error files EMOJI_MAP (mkState files [] 0)
                (fun _ => eq_refl)) as H.
  unfold main. by destruct (convert_loop _ _) as [st [e|]].
Qed.

Lemma first_error_None files items :
  first_error files items = None <-> forallb (input_okb files) items = true.
Proof.
  induction items as [|item rest IH]; [done|].
  cbn [first_error forallb]. unfold input_okb at 1.
  destruct (files !! png_path_of item.1) as [[img|t]|].
  - destruct (decide (size img = (32, 32))) as [Hsz|Hsz].
    + by rewrite (bool_decide_eq_true_2 _ Hsz).
    + by rewrite (bool_decide_eq_false_2 _ Hsz).
  - done.
  - exact IH.
Qed.

Lemma first_error_kinds files items :
  first_error files items = None
  \/ first_error files items = Some AssertionError
  \/ first_error files items = Some UnidentifiedImageError.
Proof.
  induction items as [|item rest IH]; [by left|].
  cbn [first_error].
  destruct (files !! png_path_of item.1) as [[img|t]|]; [|auto|exact IH].
  destruct (decide (size img = (32, 32))); [exact IH | auto].
Qed.

(** The run of the driver completes exactly when every input file that
    exists is a 32x32 image. Otherwise it stops with the assertion error of
    a wrong size or with the error of a file that is no image; a missing
    file never makes it fail, since the loop checks for the file first. *)
Theorem codec_run_completes_iff_inputs_fit (files : gmap string file) :
  ((main files).2 = None <-> forallb (input_okb files) EMOJI_MAP = true)
  /\ ((main files).2 = None
      \/ (main files).2 = Some AssertionError
      \/ (main files).2 = Some UnidentifiedImageError).
Proof.
  rewrite main_error. split; [apply first_error_None | apply first_error_kinds].
Qed.

Lemma convert_loop_frame items p :
  (forall item, In item items -> p <> out_path_of item.2) ->
  forall st, fs (convert_loop items st).1 !! p = fs st !! p.
Proof.
  induction items as [|[name cp] rest IH]; intros Hp st; [reflexivity|].
  cbn [convert_loop].
  assert (Hrest : forall item, In item rest -> p <> out_path_of item.2)
    by (intros; apply Hp; by right).
  destruct (fs st !! png_path_of name); [|by rewrite (IH Hrest)].
  destruct (png_to_rgb565a8 _ _) as [data|e]; [|reflexivity].
  rewrite (IH Hrest). cbn [write_text print fs].
  apply lookup_insert_ne. apply not_eq_sym, (Hp (name, cp)). by left.
Qed.

Lemma convert_loop_grows items p :
  forall st, is_Some (fs st !! p) -> is_Some (fs (convert_loop items st).1 !! p).
Proof.
  induction items as [|[name cp] rest IH]; intros st Hp; [exact Hp|].
  cbn [convert_loop].
  destruct (fs st !! png_path_of name); [|by apply IH].
  destruct (png_to_rgb565a8 _ _) as [data|e]; [|exact Hp].
  apply IH. cbn [write_text print fs].
  destruct (decide (out_path_of cp = p)) as [<- | Hne].
  - rewrite lookup_insert_eq. by eexists.
  - by rewrite lookup_insert_ne.
Qed.

Lemma main_fs files :
  fs (main files).1 = fs (convert_loop EMOJI_MAP (mkState files [] 0)).1.
Proof. unfold main. by destruct (convert_loop _ _) as [st [e|]]. Qed.

(** Whether the run completes or not, it changes no file other than the C
    files of the table, and it deletes nothing: in particular the input
    images are left as they were. *)
Theorem codec_run_only_writes_its_outputs (files : gmap string file)
    (path : string) :
  ((forall item, In item EMOJI_MAP -> path <> out_path_of item.2) ->
   fs (main files).1 !! path = files !! path)
  /\ (is_Some (files !! path) -> is_Some (fs (main files).1 !! path))
  /\ forall name, fs (main files).1 !! png_path_of name
                  = files !! png_path_of name.
Proof.
  rewrite main_fs. split; [|split].
  - intros Hp. by rewrite convert_loop_frame.
  - apply (convert_loop_grows EMOJI_MAP path (mkState files [] 0)).
  - intros name. rewrite convert_loop_frame; [reflexivity|].
    intros item _. apply not_eq_sym, out_path_ne_png_path.
Qed.

Lemma codec_run_only_writes_its_outputs_witness :
  fs (main wrong_size).1 !! "output/image.png" = wrong_size !! "output/image.png"
  /\ is_Some (fs (main wrong_size).1 !! png_path_of "happy").
Proof.
  destruct (codec_run_only_writes_its_outputs wrong_size "output/image.png")
    as (H1 & _ & _).
  destruct (codec_run_only_writes_its_outputs wrong_size
              (png_path_of "happy")) as (_ & H2 & _).
  split.
  - apply H1. intros item _. cbn. discriminate.
  - apply H2. vm_compute. by eexists.
Defined.

End DriverMore.

(** ** Further properties of the generation pipeline *)

Section ServiceAnswers.
Import PIL Generator Rerun MoreGen.

Lemma first_image_skip before rest :
  Forall (fun q => is_image_part q = false) before ->
  first_image (before ++ rest) = first_image rest.
Proof.
  induction before as [|q before IH]; intros H; [reflexivity|].
  apply Forall_cons in H. destruct H as [Hq H]. cbn [app first_image].
  unfold is_image_part in Hq. destruct (inline_data q) as [blob|].
  - rewrite Hq. by apply IH.
  - by apply IH.
Qed.

Lemma first_image_found parts d :
  first_image parts = Some d ->
  exists before part after blob,
    parts = before ++ part :: after
    /\ Forall (fun q => is_image_part q = false) before
    /\ inline_data part = Some blob
    /\ String.prefix "image/" (mime_type blob) = true
    /\ data blob = d.
Proof.
  induction parts as [|q parts IH]; [discriminate|]. cbn [first_image].
  destruct (inline_data q) as [blob|] eqn:Hq.
  - destruct (String.prefix "image/" (mime_type blob)) eqn:Hm.
    + intros [= <-]. exists [], q, parts, blob. by repeat split.
    + intros H. destruct (IH H) as (bf & pt & af & bl & -> & Hbf & Hrest).
      exists (q :: bf), pt, af, bl. split; [reflexivity|].
      split; [|exact Hrest]. constructor; [|exact Hbf].
      unfold is_image_part. by rewrite Hq.
  - intros H. destruct (IH H) as (bf & pt & af & bl & -> & Hbf & Hrest).
    exists (q :: bf), pt, af, bl. split; [reflexivity|].
    split; [|exact Hrest]. constructor; [|exact Hbf].
    unfold is_image_part. by rewrite Hq.
Qed.

Lemma first_image_none parts :
  first_image parts = None <-> Forall (fun q => is_image_part q = false) parts.
Proof.
  induction parts as [|q parts IH]; [by split; [constructor|]|].
  cbn [first_image]. rewrite Forall_cons. unfold is_image_part at 1.
  destruct (inline_data q) as [blob|].
  - destruct (String.prefix "image/" (mime_type blob)).
    + split; [discriminate | by intros [? _]].
    + rewrite IH. tauto.
  - rewrite IH. tauto.
Qed.

(** The threshold has two values, keeps the order of luminances, and
    applying it to a bitmap that went through it changes nothing. *)
Theorem threshold_is_monotone_and_idempotent (x y : Z) :
  (x <= y)%Z ->
  (threshold x <= threshold y)%Z
  /\ (threshold x = 0%Z \/ threshold x = 255%Z)
  /\ threshold (threshold x) = threshold x
  /\ forall (img : Image Z) (xy : nat * nat),
       getpixel (binarize (binarize img)) xy = getpixel (binarize img) xy.
Proof.
  intros Hxy.
  assert (Hidem : forall v, threshold (threshold v) = threshold v).
  { intros v. unfold threshold. destruct (Z.ltb_spec 180 v); reflexivity. }
  split; [|split; [|split]].
  - unfold threshold.
    destruct (Z.ltb_spec 180 x), (Z.ltb_spec 180 y); lia.
  - unfold threshold. destruct (Z.ltb_spec 180 x); auto.
  - apply Hidem.
  - intros img xy. apply Hidem.
Qed.

Lemma threshold_is_monotone_and_idempotent_witness :
  (threshold 90 <= threshold 200)%Z
  /\ (threshold 90 = 0%Z \/ threshold 90 = 255%Z)
  /\ threshold (threshold 90) = threshold 90
  /\ forall (img : Image Z) (xy : nat * nat),
       getpixel (binarize (binarize img)) xy = getpixel (binarize img) xy.
Proof. apply (threshold_is_monotone_and_idempotent 90 200). lia. Defined.

End ServiceAnswers.

Section GenerationPhase.
Import PIL Generator Rerun MoreGen.

Variable generate_content : Request -> option Response.
Variable open_rgba : bytes -> option (Image RGBA).
Variable paste : Image RGBA -> Image RGBA -> Image Z -> Image RGBA.
Variable convert_L : Image RGBA -> Image Z.
Variable autocontrast : Image Z -> nat -> Image Z.
Variable resize : Image Z -> nat * nat -> resample -> Image Z.
Variable save_png : Image Z -> bytes.
Variable render_html : list (string * string * string * bool * bool) -> bytes.

Abbreviation mono := (monochrome paste convert_L autocontrast resize).
Abbreviation process :=
  (process_to_monochrome_32 open_rgba paste convert_L autocontrast resize
                            save_png).
Abbreviation step :=
  (process_step open_rgba paste convert_L autocontrast resize save_png).
Abbreviation process_loop :=
  (process_all open_rgba paste convert_L autocontrast resize save_png).
Abbreviation before := (before_processing generate_content).
Abbreviation run :=
  (main generate_content open_rgba paste convert_L autocontrast resize
        save_png render_html).
Abbreviation task := (gen_task generate_content).
Abbreviation reply := (answer generate_content).
Abbreviation store := (MoreGen.store generate_content).

Lemma calls_app tr tr' : calls (tr ++ tr') = calls tr ++ calls tr'.
Proof. apply omap_app. Qed.

Lemma calls_no_call evs :
  Forall (fun e => is_call e = false) evs -> calls evs = [].
Proof.
  induction evs as [|e evs IH]; intros H; [reflexivity|].
  apply Forall_cons in H. destruct H as [He H].
  destruct e; [| |discriminate]; by apply IH.
Qed.

Lemma generate_single_emoji_spec n e d ref w :
  exists m,
    generate_single_emoji generate_content n e d ref w
    = (mkWorld (fs w)
               (trace w ++ [Print (MsgGenerating n e);
                            Call (request ref (n, e, d)); Print m]),
       reply ref (n, e, d)).
Proof.
  unfold generate_single_emoji, answer, request. cbn [fst snd].
  destruct (generate_content _) as [[[|parts cands]]|]; cbn [candidates].
  - exists MsgNoImage. unfold print, call. cbn [fs trace].
    by rewrite <- !app_assoc.
  - destruct (first_image parts) as [img|].
    + exists MsgGenerated. unfold print, call. cbn [fs trace].
      by rewrite <- !app_assoc.
    + exists MsgNoImage. unfold print, call. cbn [fs trace].
      by rewrite <- !app_assoc.
  - exists MsgError. unfold print, call. cbn [fs trace].
    by rewrite <- !app_assoc.
Qed.

(** What [generate_single_emoji] returns are the data of the first part of
    the first candidate that has inline data with a MIME type starting with
    [image/]: parts without inline data and parts of another type before it
    are passed over, and the other candidates are not read. It returns
    nothing exactly when the call raises, when there is no candidate, or
    when no part of the first candidate carries an image. *)
Theorem first_image_is_the_first_image_part (n e d : string)
    (ref : option bytes) (w : world) :
  (forall image_data,
     (generate_single_emoji generate_content n e d ref w).2 = Some image_data
     <-> exists response parts others before part after blob,
           generate_content (mkRequest ref n e d) = Some response
           /\ candidates response = parts :: others
           /\ parts = before ++ part :: after
           /\ Forall (fun q => is_image_part q = false) before
           /\ inline_data part = Some blob
           /\ String.prefix "image/" (mime_type blob) = true
           /\ data blob = image_data)
  /\ ((generate_single_emoji generate_content n e d ref w).2 = None
      <-> generate_content (mkRequest ref n e d) = None
          \/ exists response,
               generate_content (mkRequest ref n e d) = Some response
               /\ match candidates response with
                  | [] => True
                  | parts :: _ =>
                      Forall (fun q => is_image_part q = false) parts
                  end).
Proof.
  destruct (generate_single_emoji_spec n e d ref w) as [m ->]. cbn [snd].
  unfold answer, request. cbn [fst snd].
  destruct (generate_content (mkRequest ref n e d)) as [response|].
  - destruct (candidates response) as [|parts others] eqn:Hc.
    + split.
      * intros image_data. split; [discriminate|].
        intros (r & p & o & _ & _ & _ & _ & [= <-] & Hp & _). congruence.
      * split; [|done]. intros _. right. exists response.
        by rewrite Hc.
    + split.
      * intros image_data. split.
        -- intros Hf. apply first_image_found in Hf.
           destruct Hf as (bf & pt & af & bl & Hparts & Hrest).
           by exists response, parts, others, bf, pt, af, bl.
        -- intros (r & p & o & bf & pt & af & bl
                   & [= <-] & Hp & -> & Hbf & Hin & Hm & <-).
           rewrite Hc in Hp. injection Hp as -> ->.
           rewrite first_image_skip by exact Hbf. cbn [first_image].
           by rewrite Hin, Hm.
      * rewrite first_image_none. split.
        -- intros H. right. exists response. by rewrite Hc.
        -- intros [? | (r & [= <-] & H)]; [done|]. by rewrite Hc in H.
  - split.
    + intros image_data. split; [discriminate|].
      by intros (r & p & o & _ & _ & _ & _ & ? & _).
    + split; [by left | done].
Qed.

Lemma gen_task_spec ref item w :
  (task ref item w).2 = truthy (reply ref item)
  /\ fs (task ref item w).1 = store ref (fs w) item
  /\ calls (trace (task ref item w).1)
     = calls (trace w) ++ [request ref item].
Proof.
  destruct item as [[n e] d]. unfold gen_task, MoreGen.store.
  destruct (generate_single_emoji_spec n e d ref w) as [m ->].
  change (name_of (n, e, d)) with n.
  destruct (reply ref (n, e, d)) as [[|b bs]|];
    cbn [truthy fst snd write print fs trace];
    rewrite ?calls_app; cbn; by rewrite ?app_nil_r.
Qed.

Lemma run_tasks_eq ref todo :
  forall w g f,
    run_tasks generate_content ref todo w g f
    = (fold_left (fun w item => (task ref item w).1) todo w,
       g + length (List.filter (fun item => truthy (reply ref item)) todo),
       f + length (List.filter (fun item => negb (truthy (reply ref item)))
                               todo)).
Proof.
  induction todo as [|item rest IH]; intros w g f.
  - cbn. by rewrite !Nat.add_0_r.
  - cbn [run_tasks fold_left List.filter].
    pose proof (gen_task_spec ref item w) as (Hflag & _).
    destruct (task ref item w) as [w' flag]. cbn [fst snd] in *. subst flag.
    destruct (truthy (reply ref item)); rewrite IH; cbn [negb length];
      (apply (f_equal2 pair);
         [apply (f_equal2 pair); [reflexivity | lia] | lia]).
Qed.

Lemma fold_task_facts ref todo :
  forall w,
    fs (fold_left (fun w item => (task ref item w).1) todo w)
    = fold_left (store ref) todo (fs w)
    /\ calls (trace (fold_left (fun w item => (task ref item w).1) todo w))
       = calls (trace w) ++ map (request ref) todo.
Proof.
  induction todo as [|item rest IH]; intros w.
  - cbn. by rewrite app_nil_r.
  - cbn [fold_left map].
    pose proof (gen_task_spec ref item w) as (_ & Hfs & Hcalls).
    destruct (IH (task ref item w).1) as [IH1 IH2].
    rewrite IH1, IH2, Hfs, Hcalls. by rewrite <- app_assoc.
Qed.

Lemma select_todo_eq items :
  forall w,
    (select_todo items w).1.2
    = List.filter (fun item => negb (has_raw (fs w) item)) items
    /\ (select_todo items w).2 = length (List.filter (has_raw (fs w)) items)
    /\ fs (select_todo items w).1.1 = fs w
    /\ calls (trace (select_todo items w).1.1) = calls (trace w).
Proof.
  induction items as [|[[n e] d] rest IH]; intros w; [done|].
  cbn [select_todo List.filter].
  change (has_raw (fs w) (n, e, d)) with (exists_ (raw_path_of n) w).
  destruct (exists_ (raw_path_of n) w).
  - specialize (IH (print (MsgExists n e) w)).
    destruct (select_todo rest _) as [[w' todo] sk]. cbn [fst snd] in *.
    destruct IH as (-> & -> & -> & ->). cbn [negb length].
    repeat split. unfold print. cbn [trace]. rewrite calls_app.
    apply app_nil_r.
  - specialize (IH w).
    destruct (select_todo rest _) as [[w' todo] sk]. cbn [fst snd] in *.
    by destruct IH as (-> & -> & -> & ->).
Qed.

Lemma load_reference_image_facts files :
  (load_reference_image (mkWorld files [])).2 = files !! REFERENCE_IMAGE_PATH
  /\ fs (load_reference_image (mkWorld files [])).1 = files
  /\ calls (trace (load_reference_image (mkWorld files [])).1) = [].
Proof.
  unfold load_reference_image. cbn [fs].
  by destruct (files !! REFERENCE_IMAGE_PATH).
Qed.

(** The first phase: the summary it prints, the requests it sends and the
    files it leaves. *)
Lemma before_processing_facts items files :
  let ref := files !! REFERENCE_IMAGE_PATH in
  let todo := List.filter (fun item => negb (has_raw files item)) items in
  In (Print (MsgStep1
               (length (List.filter (fun item => truthy (reply ref item)) todo))
               (length (List.filter (has_raw files) items))
               (length (List.filter
                          (fun item => negb (truthy (reply ref item))) todo))))
     (trace (before items files))
  /\ calls (trace (before items files)) = map (request ref) todo
  /\ fs (before items files) = fold_left (store ref) todo files.
Proof.
  intros ref todo. unfold before_processing.
  pose proof (load_reference_image_facts files) as (Href & Hfs1 & Hc1).
  destruct (load_reference_image _) as [w1 ref']. cbn [fst snd] in *.
  subst ref'. fold ref.
  pose proof (select_todo_eq items w1) as (Htodo & Hsk & Hfs2 & Hc2).
  destruct (select_todo items w1) as [[w2 todo'] sk]. cbn [fst snd] in *.
  rewrite Hfs1 in Htodo, Hsk, Hfs2. rewrite Hc1 in Hc2.
  subst todo' sk. fold todo.
  set (g := length (List.filter (fun item => truthy (reply ref item)) todo)).
  set (f := length (List.filter
                      (fun item => negb (truthy (reply ref item))) todo)).
  set (sk := length (List.filter (has_raw files) items)).
  assert (H3 : exists w3,
            match todo with
            | [] => (w2, 0, 0)
            | _ :: _ => run_tasks generate_content ref todo
                          (print (MsgTodo (length todo)) w2) 0 0
            end = (w3, g, f)
            /\ calls (trace w3) = map (request ref) todo
            /\ fs w3 = fold_left (store ref) todo files).
  { subst g f. destruct todo as [|t todo'] eqn:Et.
    - exists w2. by repeat split.
    - rewrite run_tasks_eq. eexists. split; [reflexivity|].
      destruct (fold_task_facts ref (t :: todo')
                  (print (MsgTodo (length (t :: todo'))) w2)) as [F1 F2].
      rewrite F1, F2. cbn [print fs trace]. rewrite calls_app, Hc2, Hfs2.
      by split. }
  destruct H3 as (w3 & -> & Hc3 & Hfs3).
  destruct (missing_of items _); cbn [print fs trace];
    rewrite ?calls_app, Hc3; cbn; rewrite ?app_nil_r;
    (split; [|by split]).
  - apply in_or_app. right. by left.
  - apply in_or_app. left. apply in_or_app. right. by left.
Qed.

(** A task stores an image only when the service returned a non-empty one:
    when the call raises, when the answer has no candidate, when the first
    candidate has no image part, and when the image is empty, the task
    fails and the files stay as they were; otherwise the payload of the
    first image part of the first candidate is written to the raw path.
    Later candidates are never looked at. *)
Theorem task_stores_only_a_non_empty_image (ref : option bytes)
    (n e d : string) (w : world) :
  let r := task ref (n, e, d) w in
  match generate_content (mkRequest ref n e d) with
  | None => r.2 = false /\ fs r.1 = fs w
  | Some response =>
      match candidates response with
      | [] => r.2 = false /\ fs r.1 = fs w
      | parts :: _ =>
          match first_image parts with
          | Some (b :: bs) =>
              r.2 = true /\ fs r.1 = <[raw_path_of n := b :: bs]> (fs w)
          | Some [] => r.2 = false /\ fs r.1 = fs w
          | None => r.2 = false /\ fs r.1 = fs w
          end
      end
  end.
Proof.
  intros r. subst r.
  pose proof (gen_task_spec ref (n, e, d) w) as (Hflag & Hfs & _).
  rewrite Hflag, Hfs. unfold MoreGen.store, answer, request.
  cbn [fst snd]. change (name_of (n, e, d)) with n.
  destruct (generate_content _) as [[[|parts cands]]|]; cbn [candidates];
    [done| |done].
  by destruct (first_image parts) as [[|b bs]|].
Qed.

(** *** The rest of the run, after the first phase *)

Section AfterFirstPhase.

Variable keep : string -> Prop.
Variable ok : event -> Prop.
Hypothesis ok_print : forall m, ok (Print m).
Hypothesis ok_final : forall n c, ok (Write (final_path_of n) c).
Hypothesis ok_preview : forall x c, ok (Write (path_join PREVIEW_DIR x) c).
Hypothesis ok_html : forall c, ok (Write HTML_PATH c).
Hypothesis keep_final : forall q n, keep q -> q <> final_path_of n.
Hypothesis keep_preview : forall q x, keep q -> q <> path_join PREVIEW_DIR x.
Hypothesis keep_html : forall q, keep q -> q <> HTML_PATH.

Lemma processing_changes items w :
  changes keep ok w (fold_left (fun w item => step item w) items w).
Proof.
  apply changes_fold. intros item w' _.
  apply process_step_changes; auto.
Qed.

Lemma after_first_phase_changes files :
  changes keep ok (before EMOTIONS files) (run files).
Proof.
  rewrite main_phases, process_all_world.
  apply generate_preview_html_changes; auto.
  apply changes_print; auto. apply processing_changes.
Qed.

End AfterFirstPhase.

Lemma filter_length_negb {A : Type} (f : A -> bool) (l : list A) :
  length (List.filter f l) + length (List.filter (fun a => negb (f a)) l)
  = length l.
Proof.
  induction l as [|a l IH]; [reflexivity|]. cbn [List.filter].
  destruct (f a); cbn [negb length]; lia.
Qed.

(** The summary of the first step adds up: the numbers of images generated,
    skipped because they exist, and failed are printed, the skipped ones
    are the items whose raw image exists, and the three numbers sum to the
    21 expressions. *)
Theorem summary_counts_add_up (files : gmap string bytes) :
  exists generated skipped failed,
    In (Print (MsgStep1 generated skipped failed)) (trace (run files))
    /\ skipped = length (List.filter (has_raw files) EMOTIONS)
    /\ generated + failed
       = length (List.filter (fun item => negb (has_raw files item)) EMOTIONS)
    /\ generated + skipped + failed = 21.
Proof.
  pose proof (before_processing_facts EMOTIONS files) as (Hin & _ & _).
  cbv zeta in Hin. eexists _, _, _. split.
  { eapply (changes_In (fun _ => False) (fun _ => True)); [|exact Hin].
    by apply after_first_phase_changes. }
  split; [reflexivity|].
  pose proof (filter_length_negb
                (fun item => truthy (reply (files !! REFERENCE_IMAGE_PATH) item))
                (List.filter (fun item => negb (has_raw files item)) EMOTIONS))
    as H1.
  pose proof (filter_length_negb (has_raw files) EMOTIONS) as H2.
  change (length EMOTIONS) with 21 in H2.
  split; [exact H1 | lia].
Qed.

(** One request is sent for every expression whose raw image is missing,
    each with the reference image if there is one; no request is sent for
    an expression whose raw image exists, and none is sent twice.  The
    requests are compared as a multiset, since the pool decides their
    order. *)
Theorem one_request_per_missing_item (files : gmap string bytes) :
  Permutation
    (calls (trace (run files)))
    (map (request (files !! REFERENCE_IMAGE_PATH))
         (List.filter (fun item => negb (has_raw files item)) EMOTIONS)).
Proof.
  pose proof (before_processing_facts EMOTIONS files) as (_ & Hcalls & _).
  cbv zeta in Hcalls.
  assert (H : changes (fun _ => False) (fun e => is_call e = false)
                 (before EMOTIONS files) (run files))
    by (by apply after_first_phase_changes).
  destruct H as [(evs & -> & Hevs) _].
  by rewrite calls_app, Hcalls, (calls_no_call evs Hevs), app_nil_r.
Qed.

Lemma fold_store_other ref todo path :
  (forall item, In item todo -> path <> raw_path_of (name_of item)) ->
  forall m, fold_left (store ref) todo m !! path = m !! path.
Proof.
  induction todo as [|item rest IH]; intros Hp m; [reflexivity|].
  cbn [fold_left]. rewrite IH by (intros; apply Hp; by right).
  unfold MoreGen.store. destruct (reply ref item) as [[|b bs]|]; try done.
  apply lookup_insert_ne, not_eq_sym, Hp. by left.
Qed.

Lemma fold_store_lookup ref todo item :
  NoDup (map name_of todo) -> In item todo ->
  forall m,
    fold_left (store ref) todo m !! raw_path_of (name_of item)
    = match reply ref item with
      | Some (b :: bs) => Some (b :: bs)
      | _ => m !! raw_path_of (name_of item)
      end.
Proof.
  induction todo as [|t rest IH]; intros Hnd Hin m; [destruct Hin|].
  cbn [map] in Hnd. apply NoDup_cons in Hnd. destruct Hnd as [Ht Hnd].
  cbn [fold_left]. destruct Hin as [-> | Hin].
  - rewrite fold_store_other.
    + unfold MoreGen.store. destruct (reply ref item) as [[|b bs]|]; try done.
      apply lookup_insert_eq.
    + intros t' Ht' Heq%raw_path_of_inj. apply Ht. rewrite Heq.
      apply list_elem_of_In. by apply in_map.
  - rewrite (IH Hnd Hin). destruct (reply ref item) as [[|b bs]|]; try done.
    all: unfold MoreGen.store; destruct (reply ref t) as [[|b' bs']|];
      try done; apply lookup_insert_ne; intros Heq%raw_path_of_inj;
      apply Ht; rewrite Heq; apply list_elem_of_In; by apply in_map.
Qed.

Lemma NoDup_map_filter {A B : Type} (f : A -> B) (p : A -> bool) (l : list A) :
  NoDup (map f l) -> NoDup (map f (List.filter p l)).
Proof.
  induction l as [|a l IH]; intros H; [constructor|].
  cbn [map] in H. apply NoDup_cons in H. destruct H as [Ha H].
  cbn [List.filter]. destruct (p a); [|by apply IH].
  cbn [map]. apply NoDup_cons. split; [|by apply IH].
  intros Hin. apply Ha. apply list_elem_of_In in Hin.
  apply in_map_iff in Hin. destruct Hin as (x & <- & Hx).
  apply list_elem_of_In, in_map. apply filter_In in Hx. tauto.
Qed.

Lemma fold_step_missing n items :
  forall w,
    fs w !! raw_path_of n = None ->
    fs (fold_left (fun w item => step item w) items w) !! final_path_of n
    = fs w !! final_path_of n.
Proof.
  induction items as [|[[m e] d] rest IH]; intros w Hraw; [reflexivity|].
  cbn [fold_left]. destruct (decide (m = n)) as [-> | Hne].
  - assert (Hs : step (n, e, d) w = print (MsgRawMissing n e) w).
    { unfold process_step, exists_. rewrite bool_decide_eq_false_2; [done|].
      rewrite Hraw. by intros [? ?]. }
    rewrite Hs. by rewrite IH.
  - pose proof (step_other open_rgba paste convert_L autocontrast resize
                  save_png n (m, e, d) w Hne) as [_ Hk].
    rewrite IH by (rewrite Hk by (by left); exact Hraw).
    apply Hk. by right.
Qed.

(** An expression whose raw image is missing is generated and processed in
    the same run: when the service returns a non-empty image, the raw file
    holds exactly that payload and, if it decodes, the final bitmap is the
    quantizer's output for it; otherwise no raw file appears and the final
    path keeps what it had. *)
Theorem missing_item_is_generated_and_processed (files : gmap string bytes)
    (n e d : string) :
  In (n, e, d) EMOTIONS -> files !! raw_path_of n = None ->
  match reply (files !! REFERENCE_IMAGE_PATH) (n, e, d) with
  | Some (b :: bs) =>
      fs (run files) !! raw_path_of n = Some (b :: bs)
      /\ match open_rgba (b :: bs) with
         | Some img =>
             fs (run files) !! final_path_of n = Some (save_png (mono img))
         | None =>
             fs (run files) !! final_path_of n = files !! final_path_of n
         end
  | _ =>
      fs (run files) !! raw_path_of n = None
      /\ fs (run files) !! final_path_of n = files !! final_path_of n
  end.
Proof.
  intros Hin Hraw.
  set (ref := files !! REFERENCE_IMAGE_PATH).
  set (todo := List.filter (fun item => negb (has_raw files item)) EMOTIONS).
  pose proof (before_processing_facts EMOTIONS files) as (_ & _ & Hfs).
  cbv zeta in Hfs. fold ref todo in Hfs.
  assert (Htodo : In (n, e, d) todo).
  { apply filter_In. split; [exact Hin|]. unfold has_raw.
    change (name_of (n, e, d)) with n.
    rewrite bool_decide_eq_false_2; [done|]. rewrite Hraw. by intros [? ?]. }
  assert (Hnd : NoDup (map name_of todo))
    by apply NoDup_map_filter, NoDup_EMOTIONS_names.
  pose proof (fold_store_lookup ref todo (n, e, d) Hnd Htodo files) as Hb.
  change (name_of (n, e, d)) with n in Hb. rewrite <- Hfs, Hraw in Hb.
  assert (Hbf : fs (before EMOTIONS files) !! final_path_of n
                = files !! final_path_of n).
  { rewrite Hfs. apply fold_store_other. intros item _. apply final_ne_raw. }
  (* the raw path after the first phase *)
  assert (Hkeep_raw : fs (run files) !! raw_path_of n
                      = fs (before EMOTIONS files) !! raw_path_of n).
  { assert (H : changes (fun q => q = raw_path_of n) (fun _ => True)
                   (before EMOTIONS files) (run files)).
    { apply after_first_phase_changes; try done.
      - intros q m ->. apply not_eq_sym, final_ne_raw.
      - intros q x ->. apply not_eq_sym, preview_ne_raw.
      - intros q ->. apply not_eq_sym, html_ne_raw. }
    exact (proj2 H _ eq_refl). }
  (* the final path after the second loop *)
  assert (Hkeep_final :
            fs (run files) !! final_path_of n
            = fs (fold_left (fun w item => step item w) EMOTIONS
                            (before EMOTIONS files)) !! final_path_of n).
  { rewrite main_phases, process_all_world.
    assert (H : changes (fun q => q = final_path_of n) (fun _ => True)
                  (fold_left (fun w item => step item w) EMOTIONS
                             (before EMOTIONS files))
                  (generate_preview_html render_html
                     (print (MsgDone
                               (process_loop EMOTIONS (before EMOTIONS files)
                                             0).2 (length EMOTIONS))
                            (fold_left (fun w item => step item w) EMOTIONS
                                       (before EMOTIONS files))))).
    { apply generate_preview_html_changes; [done | done | |].
      - intros q ->. apply not_eq_sym, html_ne_final.
      - apply changes_print; [done | apply changes_refl]. }
    exact (proj2 H _ eq_refl). }
  rewrite Hkeep_raw, Hkeep_final.
  destruct (reply ref (n, e, d)) as [[|b bs]|].
  - split; [exact Hb|]. by rewrite fold_step_missing.
  - split; [exact Hb|].
    pose proof (fold_step_final open_rgba paste convert_L autocontrast resize
                  save_png n (b :: bs) EMOTIONS NoDup_EMOTIONS_names
                  (in_map name_of _ _ Hin) (before EMOTIONS files) Hb) as Hf.
    destruct (open_rgba (b :: bs)) as [img|]; [exact (proj1 Hf)|].
    by rewrite Hf.
  - split; [exact Hb|]. by rewrite fold_step_missing.
Qed.

(** A run changes no file other than raw images, final bitmaps, previews
    and the HTML page: the reference image, for one, is only read. *)
Theorem generator_run_only_writes_its_outputs (files : gmap string bytes)
    (path : string) :
  (forall n, path <> raw_path_of n) -> (forall n, path <> final_path_of n) ->
  (forall x, path <> path_join PREVIEW_DIR x) -> path <> HTML_PATH ->
  fs (run files) !! path = files !! path.
Proof.
  intros Hraw Hfinal Hprev Hhtml.
  pose proof (before_processing_facts EMOTIONS files) as (_ & _ & Hfs).
  cbv zeta in Hfs.
  transitivity (fs (before EMOTIONS files) !! path).
  - assert (H : changes (fun q => q = path) (fun _ => True)
                  (before EMOTIONS files) (run files))
      by (apply after_first_phase_changes; try done; intros; by subst).
    exact (proj2 H _ eq_refl).
  - rewrite Hfs. apply fold_store_other. intros item _. apply Hraw.
Qed.

(** *** The count of the second step *)

Lemma decodes_ext m1 m2 item :
  (forall n, m1 !! raw_path_of n = m2 !! raw_path_of n) ->
  decodes open_rgba m1 item = decodes open_rgba m2 item.
Proof. intros H. unfold decodes. by rewrite H. Qed.

Lemma step_keeps_raw item w n :
  fs (step item w) !! raw_path_of n = fs w !! raw_path_of n.
Proof.
  assert (H : changes (fun q => exists m, q = raw_path_of m) (fun _ => True)
                w (step item w)).
  { apply process_step_changes; [done | done | done | |].
    - intros q [m ->]. apply not_eq_sym, final_ne_raw.
    - intros q x [m ->]. apply not_eq_sym, preview_ne_raw. }
  exact (proj2 H _ (ex_intro _ n eq_refl)).
Qed.

Lemma process_loop_cons item rest w k :
  process_loop (item :: rest) w k
  = process_loop rest (step item w)
      (if decodes open_rgba (fs w) item then k + 1 else k).
Proof.
  destruct item as [[n e] d]. cbn [process_all].
  unfold process_step, decodes, exists_. change (name_of (n, e, d)) with n.
  unfold process_to_monochrome_32.
  destruct (fs w !! raw_path_of n) as [raw|].
  - rewrite bool_decide_eq_true_2 by (by eexists).
    by destruct (open_rgba raw).
  - by rewrite bool_decide_eq_false_2 by (by intros [? ?]).
Qed.

Lemma process_loop_count items w k :
  (process_loop items w k).2
  = k + length (List.filter (decodes open_rgba (fs w)) items).
Proof.
  revert w k. induction items as [|item rest IH]; intros w k.
  - cbn [process_all List.filter length snd]. lia.
  - rewrite process_loop_cons, IH. cbn [List.filter].
    rewrite (List.filter_ext _ _
               (fun it => decodes_ext _ _ it (step_keeps_raw item w))).
    destruct (decodes open_rgba (fs w) item); cbn [length]; lia.
Qed.

(** The count printed at the end of the run is the number of expressions
    whose raw image, as it is found after the run, is there and decodes: a
    raw image that is missing or does not decode is left out of the count
    and does not stop the processing of the others. *)
Theorem final_count_is_the_number_of_decodable_raw_images
    (files : gmap string bytes) :
  exists processed,
    In (Print (MsgDone processed 21)) (trace (run files))
    /\ processed
       = length (List.filter (decodes open_rgba (fs (run files))) EMOTIONS)
    /\ processed <= 21.
Proof.
  assert (Hraw : forall n, fs (before EMOTIONS files) !! raw_path_of n
                           = fs (run files) !! raw_path_of n).
  { intros n. symmetry.
    assert (H : changes (fun q => exists m, q = raw_path_of m)
                  (fun _ => True) (before EMOTIONS files) (run files)).
    { apply after_first_phase_changes; try done.
      - intros q m [k ->]. apply not_eq_sym, final_ne_raw.
      - intros q x [k ->]. apply not_eq_sym, preview_ne_raw.
      - intros q [k ->]. apply not_eq_sym, html_ne_raw. }
    exact (proj2 H _ (ex_intro _ n eq_refl)). }
  assert (Hcount : (process_loop EMOTIONS (before EMOTIONS files) 0).2
                   = length (List.filter (decodes open_rgba (fs (run files)))
                                         EMOTIONS)).
  { rewrite process_loop_count. cbn [Nat.add].
    apply (f_equal (@length _)), List.filter_ext.
    intros it. apply decodes_ext, Hraw. }
  eexists. split; [|split; [reflexivity|]].
  - assert (Hm : run files
                 = generate_preview_html render_html
                     (print (MsgDone
                               (process_loop EMOTIONS
                                  (before EMOTIONS files) 0).2 21)
                            (process_loop EMOTIONS
                               (before EMOTIONS files) 0).1))
      by apply main_phases.
    rewrite Hcount in Hm.
    eapply (changes_In (fun _ => False) (fun _ => True)
              _ (print _ _) (run files)).
    + rewrite Hm. apply generate_preview_html_changes;
        [done | done | done | apply changes_refl].
    + unfold print. cbn [trace]. apply in_or_app. right. by left.
  - pose proof (filter_length_negb (decodes open_rgba (fs (run files)))
                  EMOTIONS) as H.
    change (length EMOTIONS) with 21 in H. lia.
Qed.

(** *** Where the bitmap and its preview go *)

(** Processing a raw image that decodes writes two files and nothing else:
    the bitmap at the final path, and beside it, under the name of the
    final file in the preview directory, the nearest-neighbour enlargement
    of that bitmap to 128x128. *)
Theorem preview_is_written_beside_the_bitmap (n : string) (raw : bytes)
    (img : Image RGBA) (w : world) :
  has_slash n = false ->
  fs w !! raw_path_of n = Some raw -> open_rgba raw = Some img ->
  exists w',
    process (raw_path_of n) (final_path_of n) w = Ok w'
    /\ fs w' !! final_path_of n = Some (save_png (mono img))
    /\ fs w' !! path_join PREVIEW_DIR (n +:+ ".png")
       = Some (save_png (resize (mono img) (128, 128) NEAREST))
    /\ (forall path,
          path <> final_path_of n ->
          path <> path_join PREVIEW_DIR (n +:+ ".png") ->
          fs w' !! path = fs w !! path)
    /\ trace w'
       = trace w
           ++ [Write (final_path_of n) (save_png (mono img));
               Write (path_join PREVIEW_DIR (n +:+ ".png"))
                     (save_png (resize (mono img) (128, 128) NEAREST))].
Proof.
  intros Hn Hraw Himg. unfold process_to_monochrome_32.
  rewrite Hraw, Himg, (name_final_path n Hn). eexists. split; [reflexivity|].
  unfold write. cbn [fs trace]. split.
  { rewrite lookup_insert_ne by apply preview_ne_final.
    apply lookup_insert_eq. }
  split; [apply lookup_insert_eq|]. split.
  { intros path H1 H2. by rewrite !lookup_insert_ne. }
  by rewrite <- app_assoc.
Qed.

End GenerationPhase.

Section GenerationExamples.
Import PIL Generator Rerun MoreGen.

Lemma missing_item_is_generated_and_processed_witness :
  fs (answering_main ∅) !! raw_path_of "neutral" = Some [200%Z]
  /\ fs (answering_main ∅) !! final_path_of "neutral" = Some [255%Z].
Proof.
  assert (Hin : In (hd ("", "", "") EMOTIONS) EMOTIONS)
    by (left; reflexivity).
  exact (missing_item_is_generated_and_processed
           answering Sample.open_rgba Sample.paste Sample.convert_L
           Sample.autocontrast Sample.resize Sample.save_png
           Sample.render_html ∅ "neutral" _ _ Hin eq_refl).
Defined.

Lemma generator_run_only_writes_its_outputs_witness :
  fs (Sample.main Sample.after_first_run) !! REFERENCE_IMAGE_PATH
  = Sample.after_first_run !! REFERENCE_IMAGE_PATH.
Proof.
  apply (generator_run_only_writes_its_outputs
           Sample.generate_content Sample.open_rgba Sample.paste
           Sample.convert_L Sample.autocontrast Sample.resize
           Sample.save_png Sample.render_html Sample.after_first_run
           REFERENCE_IMAGE_PATH).
  - intros n. cbn. discriminate.
  - intros n. cbn. discriminate.
  - intros x. cbn. discriminate.
  - cbn. discriminate.
Defined.

Lemma preview_is_written_beside_the_bitmap_witness :
  exists w',
    process_to_monochrome_32 Sample.open_rgba Sample.paste Sample.convert_L
      Sample.autocontrast Sample.resize Sample.save_png
      (raw_path_of "neutral") (final_path_of "neutral")
      (mkWorld Sample.after_first_run []) = Ok w'
    /\ fs w' !! final_path_of "neutral" = Some [0%Z]
    /\ fs w' !! "output/emoji_preview/neutral.png" = Some [0%Z]
    /\ (forall path,
          path <> final_path_of "neutral" ->
          path <> "output/emoji_preview/neutral.png" ->
          fs w' !! path = Sample.after_first_run !! path)
    /\ trace w'
       = [Write (final_path_of "neutral") [0%Z];
          Write "output/emoji_preview/neutral.png" [0%Z]].
Proof.
  apply (preview_is_written_beside_the_bitmap
           Sample.open_rgba Sample.paste Sample.convert_L
           Sample.autocontrast Sample.resize Sample.save_png
           "neutral" [90%Z] (new (32, 32) (90, 90, 90, 255)%Z)
           (mkWorld Sample.after_first_run [])).
  - reflexivity.
  - vm_compute. reflexivity.
  - reflexivity.
Defined.

End GenerationExamples.
